(** * Formatting and parsing of civil times: time_zone_format.cc

    A shallow embedding of [format] and [parse] of
    src/src/time_zone_format.cc.  Character ranges are lists of ASCII
    characters (the unexamined suffix of the C++ range), C++ integers are
    [Z] with the C semantics of [/] and [%] (truncation, [Z.quot] and
    [Z.rem]) written out.  The platform [strftime]/[strptime] and the time
    zone are collaborators and enter as parameters. *)

From Stdlib Require Import ZArith List Ascii String Bool Lia DecimalString.
Import ListNotations.
Open Scope Z_scope.

(** ** Characters and character ranges *)

Definition str (s : string) : list ascii := list_ascii_of_string s.

Definition NUL : ascii := Ascii.zero.

(** [*p] on a range: the byte at the cursor; at the end of a C++ string
    this is the terminating NUL. *)
Definition peek (s : list ascii) : ascii :=
  match s with [] => NUL | c :: _ => c end.

Definition char_code (c : ascii) : Z := Z.of_nat (nat_of_ascii c).

(** [std::isdigit] *)
Definition isdigit (c : ascii) : bool :=
  (48 <=? char_code c) && (char_code c <=? 57).

(** [std::isspace] in the C locale. *)
Definition isspace (c : ascii) : bool :=
  let n := char_code c in (n =? 32) || ((9 <=? n) && (n <=? 13)).

(** Modelled from the spec: [char_range::consume_leading_spaces], which
    lives in a header outside src/ ("strip leading ASCII whitespace").
    The result tells whether anything was stripped, as its use as a loop
    guard in [parse] requires. *)
Fixpoint strip_spaces (s : list ascii) : list ascii :=
  match s with
  | c :: r => if isspace c then strip_spaces r else s
  | [] => []
  end.

Definition consume_leading_spaces (s : list ascii) : bool * list ascii :=
  let r := strip_spaces s in (negb (Nat.eqb (List.length r) (List.length s)), r).

(** [char_range::consume_prefix] *)
Fixpoint consume_prefix (p s : list ascii) : option (list ascii) :=
  match p, s with
  | [], _ => Some s
  | c :: p', d :: s' => if Ascii.eqb c d then consume_prefix p' s' else None
  | _ :: _, [] => None
  end.

Definition starts_with (p s : list ascii) : bool :=
  match consume_prefix p s with Some _ => true | None => false end.

(** ** Integer limits *)

Definition int_min : Z := - 2 ^ 31.
Definition int_max : Z := 2 ^ 31 - 1.
Definition int64_min : Z := - 2 ^ 63.
Definition int64_max : Z := 2 ^ 63 - 1.

(** [kDigits] *)
Definition digit (d : Z) : ascii := ascii_of_nat (Z.to_nat (48 + d)).

(** ** [Format64] and [Format02d]

    Both write right-to-left into a scratch buffer ending at [ep]; the
    model returns the written bytes [bp .. ep) in order. *)

(** The [do { *--ep = kDigits[v % 10]; } while (v /= 10)] loop for
    [v >= 0]; [fuel] bounds the number of digits.  Returns the digits
    written (most significant first) and how many there are. *)
Fixpoint format_digits (fuel : nat) (v : Z) (acc : list ascii) : list ascii :=
  match fuel with
  | O => acc
  | S f =>
      let acc := digit (Z.rem v 10) :: acc in
      let v := Z.quot v 10 in
      if v =? 0 then acc else format_digits f v acc
  end.

Definition digits_fuel (v : Z) : nat := S (Z.to_nat (Z.log2 v)).

Definition Format64 (width : Z) (v : Z) : list ascii :=
  let '(neg, width, v, tail) :=
    if v <? 0 then
      let width := width - 1 in
      if v =? int64_min then
        (* Avoid negating minimum value. *)
        let last_digit := - Z.rem v 10 in
        let v := Z.quot v 10 in
        let '(v, last_digit) :=
          if last_digit <? 0 then (v + 1, last_digit + 10) else (v, last_digit) in
        (true, width - 1, - v, [digit last_digit])
      else (true, width, - v, [])
    else (false, width, v, []) in
  let ds := format_digits (digits_fuel v) v tail in
  let width := width - Z.of_nat (List.length ds - List.length tail) in
  let padded := repeat "0"%char (Z.to_nat width) ++ ds in
  if neg then "-"%char :: padded else padded.

Definition Format02d (v : Z) : list ascii :=
  [digit (Z.rem (Z.quot v 10) 10); digit (Z.rem v 10)].

(** ** [FormatOffset] *)

Definition FormatOffset (offset : Z) (mode : list ascii) : list ascii :=
  let '(sign, offset) :=
    if offset <? 0 then ("-"%char, - offset) else ("+"%char, offset) in
  let seconds := Z.rem offset 60 in
  let minutes := Z.rem (Z.quot offset 60) 60 in
  let hours := Z.quot (Z.quot offset 60) 60 in
  let sep := nth 0 mode NUL in
  let ext := negb (Ascii.eqb sep NUL) && Ascii.eqb (nth 1 mode NUL) "*"%char in
  let ccc := ext && Ascii.eqb (nth 2 mode NUL) ":"%char in
  let '(sign, secs_part) :=
    if ext && (negb ccc || negb (seconds =? 0)) then
      (sign, sep :: Format02d seconds)
    else
      (* If we're not rendering seconds, sub-minute negative offsets
         should get a positive sign (e.g., offset=-10s => "+00:00"). *)
      (if (hours =? 0) && (minutes =? 0) then "+"%char else sign, []) in
  let mins_part :=
    if negb ccc || negb (minutes =? 0) || negb (seconds =? 0) then
      (if Ascii.eqb sep NUL then [] else [sep]) ++ Format02d minutes
    else [] in
  sign :: Format02d hours ++ mins_part ++ secs_part.

(** ** [ParseInt]

    [template <typename T> ParseInt(s, width, min, max, vp)]: [kmin] is
    [std::numeric_limits<T>::min()] and [-kmin-1] its maximum.  Signed
    overflow is undefined behaviour in C++, so every arithmetic result is
    checked against the range of [T] and an overflow is reported as
    [PI_ub] rather than silently computed. *)

Inductive pint_result :=
| PI_ub
| PI_fail
| PI_ok (value : Z) (rest : list ascii).

Definition in_T (kmin v : Z) : bool := (kmin <=? v) && (v <=? - kmin - 1).

(** The digit loop [while (cp != s.end) { ... }], accumulating negatively.
    [LDone value rest] is the loop exit with [cp] at [rest]. *)
Inductive loop_result :=
| L_ub
| L_fail
| L_done (value : Z) (rest : list ascii).

Fixpoint ParseInt_loop (kmin width value : Z) (s : list ascii) : loop_result :=
  match s with
  | [] => L_done value []
  | c :: r =>
      let d := char_code c - 48 in
      if (d <? 0) || (10 <=? d) then L_done value s
      else if value <? Z.quot kmin 10 then L_fail
      else
        let value := value * 10 in
        if negb (in_T kmin value) then L_ub
        else if value <? kmin + d then L_fail
        else
          let value := value - d in
          if negb (in_T kmin value) then L_ub
          else if (width >? 0) && (width - 1 =? 0) then L_done value r
          else ParseInt_loop kmin (if width >? 0 then width - 1 else width) value r
  end.

Definition ParseInt (kmin : Z) (s : list ascii) (width min max : Z) : pint_result :=
  let '(neg, s, width, early_fail) :=
    match s with
    | "-"%char :: s' =>
        (true, s', (if width >? 1 then width - 1 else width), width =? 1)
    | _ => (false, s, width, false)
    end in
  if early_fail then PI_fail else
  match ParseInt_loop kmin width 0 s with
  | L_ub => PI_ub
  | L_fail => PI_fail
  | L_done value cp =>
      if Nat.eqb (List.length cp) (List.length s) then PI_fail
      else if negb neg && (value =? kmin) then PI_fail
      else if neg && (value =? 0) then PI_fail
      else
        let value := if neg then value else - value in (* make positive *)
        if negb (in_T kmin value) then PI_ub
        else if negb ((min <=? value) && (value <=? max)) then PI_fail
        else PI_ok value cp
  end.

(** Number of characters consumed between two cursors into one range. *)
Definition consumed (before after : list ascii) : Z :=
  Z.of_nat (List.length before) - Z.of_nat (List.length after).

(** ** [ParseOffset]

    [*offset] is only written on success; the components are written by
    [ParseInt] whenever it succeeds, even when the length test that
    follows rejects them. *)
Definition ParseOffset (data : list ascii) (mode : list ascii) : option (Z * list ascii) :=
  match data with
  | [] => None
  | first :: data =>
      if Ascii.eqb first "Z"%char then Some (0, data)  (* Zulu *)
      else if negb (Ascii.eqb first "+"%char || Ascii.eqb first "-"%char) then None
      else
        let sep := nth 0 mode NUL in
        match ParseInt int_min data 2 0 23 with
        | PI_ok hours hours_end =>
            if negb (consumed data hours_end =? 2) then None
            else
              let hours_end :=
                if negb (Ascii.eqb sep NUL) && Ascii.eqb (peek hours_end) sep
                then tl hours_end else hours_end in
              let data := hours_end in
              let '(minutes, seconds, data) :=
                match ParseInt int_min data 2 0 59 with
                | PI_ok minutes minutes_end =>
                    if consumed data minutes_end =? 2 then
                      let minutes_end :=
                        if negb (Ascii.eqb sep NUL) && Ascii.eqb (peek minutes_end) sep
                        then tl minutes_end else minutes_end in
                      let data := minutes_end in
                      match ParseInt int_min data 2 0 59 with
                      | PI_ok seconds seconds_end =>
                          if consumed data seconds_end =? 2
                          then (minutes, seconds, seconds_end)
                          else (minutes, seconds, data)
                      | _ => (minutes, 0, data)
                      end
                    else (minutes, 0, data)
                | _ => (0, 0, data)
                end in
              let offset := (hours * 60 + minutes) * 60 + seconds in
              Some (if Ascii.eqb first "-"%char then - offset else offset, data)
        | _ => None
        end
  end.

(** ** [ParseZone] *)
Fixpoint zone_run (s : list ascii) : list ascii * list ascii :=
  match s with
  | c :: r => if isspace c then ([], s) else let '(z, rest) := zone_run r in (c :: z, rest)
  | [] => ([], [])
  end.

Definition ParseZone (data : list ascii) : option (list ascii * list ascii) :=
  let '(zone, dp) := zone_run data in
  match zone with [] => None | _ => Some (zone, dp) end.

(** ** [ParseSubSeconds] and [kExp10] *)

Definition kDigits10_64 : Z := 18.

Definition kExp10 (n : Z) : Z := 10 ^ n.

Fixpoint ParseSubSeconds_loop (v exp : Z) (s : list ascii) : Z * Z * list ascii :=
  match s with
  | [] => (v, exp, [])
  | c :: r =>
      let d := char_code c - 48 in
      if (d <? 0) || (10 <=? d) then (v, exp, s)
      else if exp <? 15 then ParseSubSeconds_loop (v * 10 + d) (exp + 1) r
      else ParseSubSeconds_loop v exp r
  end.

Definition ParseSubSeconds (s : list ascii) : option (Z * list ascii) :=
  let '(v, exp, cp) := ParseSubSeconds_loop 0 0 s in
  if Nat.eqb (List.length cp) (List.length s) then None
  else Some (v * kExp10 (15 - exp), cp).

(** ** Civil time (collaborator)

    Modelled from the spec: the civil-calendar arithmetic of
    cctz/civil_time.h (not under src/): a CivilSecond is a normalized
    proleptic-Gregorian (year, month, day, hour, minute, second); building
    one from fields normalizes them, and adding seconds yields a normalized
    CivilSecond.  Years are unbounded integers here (the saturation at the
    64-bit extremes is not modelled). *)

Record civil_second := mk_cs {
  cs_year : Z; cs_month : Z; cs_day : Z;
  cs_hour : Z; cs_minute : Z; cs_second : Z }.

(** Day of the 400-year era [doe] in [0, 146097) from (year of era,
    month, day), with March as the first month of the computational year. *)
Definition doe_of_ymd (yoe m d : Z) : Z :=
  let mp := if m >? 2 then m - 3 else m + 9 in
  let doy := (153 * mp + 2) / 5 + d - 1 in
  yoe * 365 + yoe / 4 - yoe / 100 + doy.

Definition ymd_of_doe (doe : Z) : Z * Z * Z :=
  let yoe := (doe - doe / 1460 + doe / 36524 - doe / 146096) / 365 in
  let doy := doe - (365 * yoe + yoe / 4 - yoe / 100) in
  let mp := (5 * doy + 2) / 153 in
  let d := doy - (153 * mp + 2) / 5 + 1 in
  let m := if mp <? 10 then mp + 3 else mp - 9 in
  (yoe, m, d).

(** Days since 1970-01-01 of a date with [1 <= m <= 12]; linear in [d]. *)
Definition days_from_civil (y m d : Z) : Z :=
  let y := if m <=? 2 then y - 1 else y in
  let era := y / 400 in
  era * 146097 + doe_of_ymd (y - era * 400) m d - 719468.

Definition civil_from_days (z : Z) : Z * Z * Z :=
  let z := z + 719468 in
  let era := z / 146097 in
  let '(yoe, m, d) := ymd_of_doe (z - era * 146097) in
  (yoe + era * 400 + (if m <=? 2 then 1 else 0), m, d).

(** Seconds since the epoch of arbitrary fields: months carry into years,
    then days, hours, minutes and seconds are linear. *)
Definition unix_of_fields (y m d hh mm ss : Z) : Z :=
  let y := y + (m - 1) / 12 in
  let m := (m - 1) mod 12 + 1 in
  (days_from_civil y m 1 + (d - 1)) * 86400 + hh * 3600 + mm * 60 + ss.

Definition civil_of_unix (t : Z) : civil_second :=
  let days := t / 86400 in
  let sod := t mod 86400 in
  let '(y, m, d) := civil_from_days days in
  mk_cs y m d (sod / 3600) (sod mod 3600 / 60) (sod mod 60).

Definition unix_of_civil (cs : civil_second) : Z :=
  unix_of_fields (cs_year cs) (cs_month cs) (cs_day cs)
                 (cs_hour cs) (cs_minute cs) (cs_second cs).

(** [civil_second(y, m, d, hh, mm, ss)]: normalizing constructor. *)
Definition make_civil (y m d hh mm ss : Z) : civil_second :=
  civil_of_unix (unix_of_fields y m d hh mm ss).

(** [cs + n] and [cs - n] *)
Definition civil_add (cs : civil_second) (n : Z) : civil_second :=
  civil_of_unix (unix_of_civil cs + n).

Definition civil_ltb (a b : civil_second) : bool := unix_of_civil a <? unix_of_civil b.

Definition civil_second_max : civil_second := mk_cs int64_max 12 31 23 59 59.
Definition civil_second_min : civil_second := mk_cs int64_min 1 1 0 0 0.

(** [get_weekday] as a [tm_wday] (0 = Sunday); 1970-01-01 was a Thursday. *)
Definition get_wday (cs : civil_second) : Z :=
  (days_from_civil (cs_year cs) (cs_month cs) (cs_day cs) + 4) mod 7.

(** [get_yearday], 1-based. *)
Definition get_yearday (cs : civil_second) : Z :=
  days_from_civil (cs_year cs) (cs_month cs) (cs_day cs)
  - days_from_civil (cs_year cs) 1 1 + 1.

(** ** Time zones (collaborator)

    Modelled from the spec: [time_zone] and its lookups (not under src/).
    An instant is a count of seconds since the epoch in the range of
    [time_point<seconds>] (64-bit).  [lookup(instant)] yields the civil
    time at the zone's offset, [lookup(CivilSecond).pre] an instant
    ("the earlier interpretation"), saturating at the 64-bit extremes. *)

Definition time_point_max : Z := int64_max.
Definition time_point_min : Z := int64_min.

Record time_zone := mk_tz {
  tz_offset : Z -> Z;              (* seconds east of UTC at an instant *)
  tz_is_dst : Z -> bool;
  tz_abbr : Z -> list ascii;
  tz_pre : civil_second -> Z }.    (* lookup(cs).pre *)

Record absolute_lookup := mk_al {
  al_cs : civil_second; al_offset : Z; al_is_dst : bool; al_abbr : list ascii }.

Definition lookup (tz : time_zone) (tp : Z) : absolute_lookup :=
  let off := tz_offset tz tp in
  mk_al (civil_of_unix (tp + off)) off (tz_is_dst tz tp) (tz_abbr tz tp).

Definition clamp64 (x : Z) : Z :=
  if x >? int64_max then int64_max else if x <? int64_min then int64_min else x.

(** A zone at a constant offset from UTC; [utc_time_zone] is offset 0. *)
Definition fixed_time_zone (off : Z) : time_zone :=
  mk_tz (fun _ => off) (fun _ => false) (fun _ => FormatOffset off [])
        (fun cs => clamp64 (unix_of_civil cs - off)).

Definition utc_time_zone : time_zone :=
  mk_tz (fun _ => 0) (fun _ => false) (fun _ => str "UTC")
        (fun cs => clamp64 (unix_of_civil cs)).

(** [ToUnixSeconds] / [FromUnixSeconds] *)
Definition ToUnixSeconds (tp : Z) : Z := tp.
Definition FromUnixSeconds (s : Z) : Z := s.

(** ** [std::tm] and [ToTM] *)

Record tm := mk_tm {
  tm_sec : Z; tm_min : Z; tm_hour : Z; tm_mday : Z; tm_mon : Z;
  tm_year : Z; tm_wday : Z; tm_yday : Z; tm_isdst : Z }.

Definition tm_zero : tm := mk_tm 0 0 0 0 0 0 0 0 0.

Definition ToTM (al : absolute_lookup) : tm :=
  let cs := al_cs al in
  let year :=
    (* Saturate tm.tm_year is cases of over/underflow. *)
    if cs_year cs <? int_min + 1900 then int_min
    else if cs_year cs - 1900 >? int_max then int_max
    else cs_year cs - 1900 in
  mk_tm (cs_second cs) (cs_minute cs) (cs_hour cs) (cs_day cs) (cs_month cs - 1)
        year (get_wday cs) (get_yearday cs - 1) (if al_is_dst al then 1 else 0).

(** ** [format] *)

Fixpoint count_while (p : ascii -> bool) (s : list ascii) : nat :=
  match s with c :: r => if p c then S (count_while p r) else O | [] => O end.

(** [cp] moving back over trailing '0's of the 15 fractional digits. *)
Definition trim_trailing_zeros (s : list ascii) : list ascii :=
  rev (skipn (count_while (fun c => Ascii.eqb c "0"%char) (rev s)) (rev s)).

Section Format.

(** The platform [strftime(buf, buf_size, fmt, tm)]: the bytes it
    produces in a buffer of [buf_size]; [[]] stands for a return of 0. *)
Variable strftime : nat -> list ascii -> tm -> list ascii.

(** [FormatTM]: retry with buffers of 2x, 4x, 8x and 16x the format
    length; if all fail the fragment contributes nothing. *)
Definition FormatTM (fmt : list ascii) (t : tm) : list ascii :=
  let fix go (sizes : list nat) :=
    match sizes with
    | [] => []
    | i :: sizes =>
        match strftime (List.length fmt * i)%nat fmt t with
        | [] => go sizes
        | out => out
        end
    end in
  go [2; 4; 8; 16]%nat.

Variables (fmt : list ascii) (tp : Z) (fs : Z) (tz : time_zone).

Definition al : absolute_lookup := lookup tz tp.
Definition tmv : tm := ToTM al.

Definition L : nat := List.length fmt.
(** [*p] for a cursor [p] into [format] *)
Definition at_ (i : nat) : ascii := nth i fmt NUL.
(** the bytes [[i, j)] of [format] *)
Definition sub (i j : nat) : list ascii := firstn (j - i) (skipn i fmt).
Definition is_c (i : nat) (c : ascii) : bool := Ascii.eqb (at_ i) c.

(** [FormatTM] of the pending run [[pending, upto)] when it is non-empty. *)
Definition flush (pending upto : nat) (result : list ascii) : list ascii :=
  if Nat.eqb upto pending then result else result ++ FormatTM (sub pending upto) tmv.

(** The simple specifiers "YmdeHMSzZs%" (and the terminating NUL, which
    [strchr] also finds). *)
Definition simple_spec (c : ascii) : list ascii :=
  let cs := al_cs al in
  if Ascii.eqb c "Y"%char then Format64 0 (cs_year cs)
  else if Ascii.eqb c "m"%char then Format02d (cs_month cs)
  else if Ascii.eqb c "d"%char then Format02d (cs_day cs)
  else if Ascii.eqb c "e"%char then
    match Format02d (cs_day cs) with
    | c0 :: r => (if Ascii.eqb c0 "0"%char then " "%char else c0) :: r  (* for Windows *)
    | [] => []
    end
  else if Ascii.eqb c "H"%char then Format02d (cs_hour cs)
  else if Ascii.eqb c "M"%char then Format02d (cs_minute cs)
  else if Ascii.eqb c "S"%char then Format02d (cs_second cs)
  else if Ascii.eqb c "z"%char then FormatOffset (al_offset al) []
  else if Ascii.eqb c "Z"%char then al_abbr al
  else if Ascii.eqb c "s"%char then Format64 0 (ToUnixSeconds tp)
  else if Ascii.eqb c "%"%char then ["%"%char]
  else [].

(** %E*S (when [is_S]) and %E*f *)
Definition star_subseconds (is_S : bool) : list ascii :=
  let digits := trim_trailing_zeros (Format64 15 fs) in
  if is_S then
    Format02d (cs_second (al_cs al)) ++ (match digits with [] => [] | _ => "."%char :: digits end)
  else match digits with [] => ["0"%char] | _ => digits end.

(** %E#S (when [is_S]) and %E#f *)
Definition n_subseconds (is_S : bool) (n : Z) : list ascii :=
  let frac :=
    if n >? 0 then
      let n := if n >? kDigits10_64 then kDigits10_64 else n in
      let ds := Format64 n (if n >? 15 then fs * kExp10 (n - 15)
                            else Z.quot fs (kExp10 (15 - n))) in
      if is_S then "."%char :: ds else ds
    else [] in
  if is_S then Format02d (cs_second (al_cs al)) ++ frac else frac.

Definition format_finish (pending : nat) (result : list ascii) : list ascii :=
  if Nat.eqb L pending then result else result ++ FormatTM (sub pending L) tmv.

(** The [while (cur != end)] loop over the three regions
    [[begin, pending)] (formatted), [[pending, cur)] (pending) and
    [[cur, end)] (unexamined).  [cur] advances on every iteration, so
    [L + 1] iterations suffice. *)
Fixpoint format_loop (fuel : nat) (pending cur : nat) (result : list ascii) : list ascii :=
  match fuel with
  | O => format_finish pending result
  | S fuel =>
  if Nat.eqb cur L then format_finish pending result else
  let start := cur in
  (* Moves cur to the next percent sign. *)
  let cur := (cur + count_while (fun c => negb (Ascii.eqb c "%"%char)) (skipn cur fmt))%nat in
  (* If the new pending text is all ordinary, copy it out. *)
  let '(result, pending, start) :=
    if negb (Nat.eqb cur start) && Nat.eqb pending start
    then (result ++ sub pending cur, cur, cur) else (result, pending, start) in
  (* Span the sequential percent signs. *)
  let percent := cur in
  let cur := (cur + count_while (fun c => Ascii.eqb c "%"%char) (skipn cur fmt))%nat in
  (* If the new pending text is all percents, copy out one percent for
     every matched pair, then skip those pairs. *)
  let '(result, pending) :=
    if negb (Nat.eqb cur start) && Nat.eqb pending start then
      let escaped := Nat.div (cur - pending) 2 in
      let result := result ++ sub pending (pending + escaped) in
      let pending := (pending + escaped * 2)%nat in
      (* Also copy out a single trailing percent. *)
      if negb (Nat.eqb pending cur) && Nat.eqb cur L
      then (result ++ [at_ pending], S pending) else (result, pending)
    else (result, pending) in
  (* Loop unless we have an unescaped percent. *)
  if Nat.eqb cur L || Nat.even (cur - percent) then format_loop fuel pending cur result else
  let c := at_ cur in
  if existsb (Ascii.eqb c) (str "YmdeHMSzZs%" ++ [NUL]) then
    (* Simple specifiers that we handle ourselves. *)
    let result := flush pending (cur - 1) result ++ simple_spec c in
    format_loop fuel (S cur) (S cur) result
  else if Ascii.eqb c ":"%char && negb (Nat.eqb (S cur) L) && is_c (S cur) "z"%char then
    (* Formats %:z. *)
    let result := flush pending (cur - 1) result ++ FormatOffset (al_offset al) (str ":") in
    format_loop fuel (cur + 2) (cur + 2) result
  else if Ascii.eqb c ":"%char && negb (Nat.eqb (S cur) L) && is_c (S cur) ":"%char
          && negb (Nat.eqb (cur + 2) L) && is_c (cur + 2) "z"%char then
    (* Formats %::z. *)
    let result := flush pending (cur - 1) result ++ FormatOffset (al_offset al) (str ":*") in
    format_loop fuel (cur + 3) (cur + 3) result
  else if Ascii.eqb c ":"%char && negb (Nat.eqb (S cur) L) && is_c (S cur) ":"%char
          && negb (Nat.eqb (cur + 2) L) && is_c (cur + 2) ":"%char
          && negb (Nat.eqb (cur + 3) L) && is_c (cur + 3) "z"%char then
    (* Formats %:::z. *)
    let result := flush pending (cur - 1) result ++ FormatOffset (al_offset al) (str ":*:") in
    format_loop fuel (cur + 4) (cur + 4) result
  (* Loop if there is no E modifier. *)
  else if negb (Ascii.eqb c "E"%char) then format_loop fuel pending cur result
  else
  let cur := S cur in
  if Nat.eqb cur L then format_loop fuel pending cur result else
  let c := at_ cur in
  (* Format our extensions. *)
  if Ascii.eqb c "z"%char then
    (* Formats %Ez. *)
    let result := flush pending (cur - 2) result ++ FormatOffset (al_offset al) (str ":") in
    format_loop fuel (S cur) (S cur) result
  else if Ascii.eqb c "*"%char && negb (Nat.eqb (S cur) L) && is_c (S cur) "z"%char then
    (* Formats %E*z. *)
    let result := flush pending (cur - 2) result ++ FormatOffset (al_offset al) (str ":*") in
    format_loop fuel (cur + 2) (cur + 2) result
  else if Ascii.eqb c "*"%char && negb (Nat.eqb (S cur) L)
          && (is_c (S cur) "S"%char || is_c (S cur) "f"%char) then
    (* Formats %E*S or %E*F. *)
    let result := flush pending (cur - 2) result ++ star_subseconds (is_c (S cur) "S"%char) in
    format_loop fuel (cur + 2) (cur + 2) result
  else if Ascii.eqb c "4"%char && negb (Nat.eqb (S cur) L) && is_c (S cur) "Y"%char then
    (* Formats %E4Y. *)
    let result := flush pending (cur - 2) result ++ Format64 4 (cs_year (al_cs al)) in
    format_loop fuel (cur + 2) (cur + 2) result
  else if isdigit c then
    (* Possibly found %E#S or %E#f. *)
    match ParseInt int_min (skipn cur fmt) 0 0 1024 with
    | PI_ok n rest =>
        let np := (L - List.length rest)%nat in
        if Nat.eqb np L then format_loop fuel pending cur result
        else if is_c np "S"%char || is_c np "f"%char then
          (* Formats %E#S or %E#f. *)
          let result := flush pending (cur - 2) result ++ n_subseconds (is_c np "S"%char) n in
          format_loop fuel (S np) (S np) result
        else format_loop fuel pending cur result
    | _ => format_loop fuel pending cur result
    end
  else format_loop fuel pending cur result
  end.

(** [format(format, tp, fs, tz)]; requires [0 <= fs < 10^15]. *)
Definition format : list ascii := format_loop (S L) 0 0 [].

End Format.

(** ** [parse] *)

(** The local variables of [parse] that the walk updates. *)
Record pstate := mk_ps {
  ps_saw_year : bool; ps_year : Z; ps_tm : tm; ps_subseconds : Z;
  ps_saw_offset : bool; ps_offset : Z; ps_zone : list ascii;
  ps_twelve_hour : bool; ps_afternoon : bool;
  ps_saw_percent_s : bool; ps_percent_s : Z }.

Definition set_year (st : pstate) (y : Z) : pstate :=
  let '(mk_ps _ _ t sub so off z th af ss ps) := st in mk_ps true y t sub so off z th af ss ps.
Definition set_tm (st : pstate) (t : tm) : pstate :=
  let '(mk_ps sy y _ sub so off z th af ss ps) := st in mk_ps sy y t sub so off z th af ss ps.
Definition set_subseconds (st : pstate) (sub : Z) : pstate :=
  let '(mk_ps sy y t _ so off z th af ss ps) := st in mk_ps sy y t sub so off z th af ss ps.
Definition set_offset (st : pstate) (off : Z) : pstate :=
  let '(mk_ps sy y t sub _ _ z th af ss ps) := st in mk_ps sy y t sub true off z th af ss ps.
Definition set_zone (st : pstate) (z : list ascii) : pstate :=
  let '(mk_ps sy y t sub so off _ th af ss ps) := st in mk_ps sy y t sub so off z th af ss ps.
Definition set_twelve_hour (st : pstate) (b : bool) : pstate :=
  let '(mk_ps sy y t sub so off z _ af ss ps) := st in mk_ps sy y t sub so off z b af ss ps.
Definition set_afternoon (st : pstate) (b : bool) : pstate :=
  let '(mk_ps sy y t sub so off z th _ ss ps) := st in mk_ps sy y t sub so off z th b ss ps.
Definition set_percent_s (st : pstate) (v : Z) : pstate :=
  let '(mk_ps sy y t sub so off z th af _ _) := st in mk_ps sy y t sub so off z th af true v.

Definition set_tm_sec (t : tm) (v : Z) : tm :=
  let '(mk_tm _ mi h md mo y wd yd dst) := t in mk_tm v mi h md mo y wd yd dst.
Definition set_tm_min (t : tm) (v : Z) : tm :=
  let '(mk_tm s _ h md mo y wd yd dst) := t in mk_tm s v h md mo y wd yd dst.
Definition set_tm_hour (t : tm) (v : Z) : tm :=
  let '(mk_tm s mi _ md mo y wd yd dst) := t in mk_tm s mi v md mo y wd yd dst.
Definition set_tm_mday (t : tm) (v : Z) : tm :=
  let '(mk_tm s mi h _ mo y wd yd dst) := t in mk_tm s mi h v mo y wd yd dst.
Definition set_tm_mon (t : tm) (v : Z) : tm :=
  let '(mk_tm s mi h md _ y wd yd dst) := t in mk_tm s mi h md v y wd yd dst.

Definition kyearmax : Z := int64_max.
Definition kyearmin : Z := int64_min.

(** Sets default values for unspecified fields. *)
Definition init_state : pstate :=
  mk_ps false 1970
        (mk_tm 0 0 0 1 (1 - 1) (1970 - 1900) 4 0 0)  (* Jan 1, Thu *)
        0 false 0 (str "UTC") false false false 0.

Inductive presult (A : Type) :=
| PErr (msg : string)
| POk (a : A).
Arguments PErr {A} msg.
Arguments POk {A} a.

Definition err_parse : string := "Failed to parse input".
Definition err_trailing : string := "Illegal trailing data in input string".
Definition err_field : string := "Out-of-range field".
Definition err_year : string := "Out-of-range year".

(** Outcome of the [switch] on a specifier: [continue] with the new
    format, input and state; [break] to [strptime] with the format after
    the specifier; or [return make_err()]. *)
Inductive step :=
| Continue (fmt inp : list ascii) (st : pstate)
| Break (fmt : list ascii) (st : pstate)
| Fail.

(** [ParseInt] into a [tm] field ([T = int]). *)
Definition parse_tm_field (inp : list ascii) (width min max : Z)
    (upd : tm -> Z -> tm) (st : pstate) (fmt : list ascii) : step :=
  match ParseInt int_min inp width min max with
  | PI_ok v r => Continue fmt r (set_tm st (upd (ps_tm st) v))
  | _ => Fail
  end.

Definition parse_offset_spec (inp mode fmt : list ascii) (st : pstate) : step :=
  match ParseOffset inp mode with
  | Some (off, r) => Continue fmt r (set_offset st off)
  | None => Fail
  end.

(** %E*S and %E#S: two-digit seconds, then an optional '.' and
    subseconds. *)
Definition parse_sec_subsec (inp fmt : list ascii) (st : pstate) : step :=
  match ParseInt int_min inp 2 0 60 with
  | PI_ok v r =>
      let st := set_tm st (set_tm_sec (ps_tm st) v) in
      match consume_prefix (str ".") r with
      | Some r' =>
          match ParseSubSeconds r' with
          | Some (sub, r'') => Continue fmt r'' (set_subseconds st sub)
          | None => Fail
          end
      | None => Continue fmt r st
      end
  | _ => Fail
  end.

(** %E*f and %E#f: subseconds iff the next input byte is a digit. *)
Definition parse_frac (inp fmt : list ascii) (st : pstate) : step :=
  if isdigit (peek inp) then
    match ParseSubSeconds inp with
    | Some (sub, r) => Continue fmt r (set_subseconds st sub)
    | None => Fail
    end
  else Continue fmt inp st.

(** The [switch] on the specifier character [c]; [fmt]
    is the format after [c]. *)
Definition spec_step (c : ascii) (fmt inp : list ascii) (st : pstate) : step :=
  if Ascii.eqb c "Y"%char then
    match ParseInt int64_min inp 0 kyearmin kyearmax with
    | PI_ok v r => Continue fmt r (set_year st v)
    | _ => Fail
    end
  else if Ascii.eqb c "m"%char then
    parse_tm_field inp 2 1 12 (fun t v => set_tm_mon t (v - 1)) st fmt
  else if Ascii.eqb c "d"%char || Ascii.eqb c "e"%char then
    parse_tm_field inp 2 1 31 set_tm_mday st fmt
  else if Ascii.eqb c "H"%char then
    match ParseInt int_min inp 2 0 23 with
    | PI_ok v r => Continue fmt r (set_twelve_hour (set_tm st (set_tm_hour (ps_tm st) v)) false)
    | _ => Fail
    end
  else if Ascii.eqb c "M"%char then parse_tm_field inp 2 0 59 set_tm_min st fmt
  else if Ascii.eqb c "S"%char then parse_tm_field inp 2 0 60 set_tm_sec st fmt
  else if Ascii.eqb c "I"%char || Ascii.eqb c "l"%char || Ascii.eqb c "r"%char then
    Break fmt (set_twelve_hour st true)
  else if Ascii.eqb c "R"%char || Ascii.eqb c "T"%char
          || Ascii.eqb c "c"%char || Ascii.eqb c "X"%char then
    Break fmt (set_twelve_hour st false)
  else if Ascii.eqb c "z"%char then parse_offset_spec inp [] fmt st
  else if Ascii.eqb c "Z"%char then
    (* ignored; zone abbreviations are ambiguous *)
    match ParseZone inp with
    | Some (z, r) => Continue fmt r (set_zone st z)
    | None => Fail
    end
  else if Ascii.eqb c "s"%char then
    match ParseInt int64_min inp 0 int64_min int64_max with
    | PI_ok v r => Continue fmt r (set_percent_s st v)
    | _ => Fail
    end
  else if Ascii.eqb c ":"%char then
    if starts_with (str "z") fmt then parse_offset_spec inp (str ":") (skipn 1 fmt) st
    else if starts_with (str ":z") fmt then parse_offset_spec inp (str ":") (skipn 2 fmt) st
    else if starts_with (str "::z") fmt then parse_offset_spec inp (str ":") (skipn 3 fmt) st
    else Break fmt st
  else if Ascii.eqb c "%"%char then
    match consume_prefix (str "%") inp with
    | Some r => Continue fmt r st
    | None => Fail
    end
  else if Ascii.eqb c "E"%char then
    match consume_prefix (str "z") fmt, consume_prefix (str "*z") fmt with
    | Some f, _ | None, Some f => parse_offset_spec inp (str ":") f st
    | None, None =>
    match consume_prefix (str "*S") fmt with
    | Some f => parse_sec_subsec inp f st
    | None =>
    match consume_prefix (str "*f") fmt with
    | Some f => parse_frac inp f st
    | None =>
    match consume_prefix (str "4Y") fmt with
    | Some f =>
        match ParseInt int64_min inp 4 (-999) 9999 with
        | PI_ok v r =>
            if negb (consumed inp r =? 4) then Fail  (* stopped too soon *)
            else Continue f r (set_year st v)
        | _ => Fail
        end
    | None =>
      let ext :=
        if isdigit (peek fmt) then
          match ParseInt int_min fmt 0 0 1024 with
          | PI_ok _ (np :: f) =>          (* n ignored; np != format.end *)
              if Ascii.eqb np "S"%char then Some (parse_sec_subsec inp f st)
              else if Ascii.eqb np "f"%char then Some (parse_frac inp f st)
              else None
          | _ => None
          end
        else None in
      match ext with
      | Some s => s
      | None =>
          let st := if Ascii.eqb (peek fmt) "c"%char then set_twelve_hour st false else st in
          let st := if Ascii.eqb (peek fmt) "X"%char then set_twelve_hour st false else st in
          Break (tl fmt) st
      end
    end end end end
  else if Ascii.eqb c "O"%char then
    let st := if Ascii.eqb (peek fmt) "H"%char then set_twelve_hour st false else st in
    let st := if Ascii.eqb (peek fmt) "I"%char then set_twelve_hour st true else st in
    Break (tl fmt) st
  else Break fmt st.

Fixpoint chars_eqb (a b : list ascii) : bool :=
  match a, b with
  | [], [] => true
  | x :: a', y :: b' => Ascii.eqb x y && chars_eqb a' b'
  | _, _ => false
  end.

(** The bytes of a buffer as [strptime] sees them through [c_str()]. *)
Fixpoint c_str (s : list ascii) : list ascii :=
  match s with c :: r => if Ascii.eqb c NUL then [] else c :: c_str r | [] => [] end.

Section Parse.

(** The platform [strptime(s, fmt, tm)]: the updated [tm] and, on success,
    how many bytes of [s] were consumed ([None] for a null return). *)
Variable strptime : list ascii -> list ascii -> tm -> tm * option nat.

(** [Parses the current specifier.] [pfmt] is the format from the '%' of
    the specifier on, [fmt] the format after it. *)
Definition delegate (pfmt fmt inp : list ascii) (st : pstate) : option (list ascii * pstate) :=
  let spec := firstn (List.length pfmt - List.length fmt) pfmt in
  match strptime (c_str inp) spec (ps_tm st) with
  | (_, None) => None
  | (t, Some n) =>
      let st := set_tm st t in
      let inp' := skipn n inp in
      let st :=
        if chars_eqb spec (str "%p") then
          (* reparse with a known AM hour and check for a PM shift *)
          let test_input := str "1" ++ firstn n inp in
          let tmp := fst (strptime (c_str test_input) (str "%I%p") tm_zero) in
          set_afternoon st (tm_hour tmp =? 13)
        else st in
      Some (inp', st)
  end.

(** The lockstep walk [while (input.begin != input.end &&
    format.begin != format.end)]; every iteration consumes format, so
    [length format + 1] iterations suffice. *)
Fixpoint walk (fuel : nat) (fmt inp : list ascii) (st : pstate)
    : presult (list ascii * pstate) :=
  match fuel with
  | O => POk (inp, st)
  | S fuel =>
  match inp, fmt with
  | [], _ | _, [] => POk (inp, st)
  | i :: _, f :: fr =>
      let '(spaces, fmt') := consume_leading_spaces fmt in
      if spaces then walk fuel fmt' (strip_spaces inp) st
      else if negb (Ascii.eqb f "%"%char) then
        if negb (Ascii.eqb f i) then PErr err_parse
        else walk fuel fr (tl inp) st
      else
        match fr with
        | [] => PErr err_parse
        | c :: fr' =>
            match spec_step c fr' inp st with
            | Fail => PErr err_parse
            | Continue fmt'' inp'' st'' => walk fuel fmt'' inp'' st''
            | Break fmt'' st'' =>
                match delegate fmt fmt'' inp st'' with
                | None => PErr err_parse
                | Some (inp'', st''') => walk fuel fmt'' inp'' st'''
                end
            end
        end
  end
  end.

End Parse.

(** [offset -= 1] of the leap-second rule: the value changes, [saw_offset]
    does not. *)
Definition set_offset_value (st : pstate) (off : Z) : pstate :=
  let '(mk_ps sy y t sub so _ z th af ss ps) := st in mk_ps sy y t sub so off z th af ss ps.

(** Adjust a 12-hour tm_hour value if it should be in the afternoon. *)
Definition adjust_afternoon (st : pstate) : pstate :=
  let t := ps_tm st in
  if ps_twelve_hour st && ps_afternoon st && (tm_hour t <? 12)
  then set_tm st (set_tm_hour t (tm_hour t + 12)) else st.

(** Allows a leap second of 60 to normalize forward to the following ":00". *)
Definition leap_second (st : pstate) : pstate :=
  let t := ps_tm st in
  if tm_sec t =? 60 then
    set_subseconds (set_offset_value (set_tm st (set_tm_sec t (tm_sec t - 1)))
                                     (ps_offset st - 1)) 0
  else st.

(** From [const int month = tm.tm_mon + 1] to the end of [parse]. *)
Definition convert (ptz : time_zone) (year : Z) (st : pstate) : presult (Z * Z) :=
  let t := ps_tm st in
  let month := tm_mon t + 1 in
  let cs := make_civil year month (tm_mday t) (tm_hour t) (tm_min t) (tm_sec t) in
  (* parse() should not allow normalization. *)
  if negb (cs_month cs =? month) || negb (cs_day cs =? tm_mday t) then PErr err_field
  else
  let offset := ps_offset st in
  (* Accounts for the offset adjustment before converting to absolute time. *)
  if ((offset <? 0) && civil_ltb (civil_add civil_second_max offset) cs)
     || ((offset >? 0) && civil_ltb cs (civil_add civil_second_min offset))
  then PErr err_field
  else
  let cs := civil_add cs (- offset) in
  let tp := tz_pre ptz cs in
  (* Checks for overflow/underflow and returns an error as necessary. *)
  if (tp =? time_point_max) && civil_ltb (al_cs (lookup ptz time_point_max)) cs
  then PErr err_field
  else if (tp =? time_point_min) && civil_ltb cs (al_cs (lookup ptz time_point_min))
  then PErr err_field
  else POk (tp, ps_subseconds st).

(** Everything after the walk: [rest] is the unconsumed input. *)
Definition finalize (tz : time_zone) (rest : list ascii) (st : pstate) : presult (Z * Z) :=
  let st := adjust_afternoon st in
  match strip_spaces rest with
  | _ :: _ => PErr err_trailing       (* parse() must consume the entire input string. *)
  | [] =>
      (* If we saw %s then we ignore anything else and return that time. *)
      if ps_saw_percent_s st then POk (FromUnixSeconds (ps_percent_s st), 0)
      else
        let ptz := if ps_saw_offset st then utc_time_zone else tz in
        let st := leap_second st in
        if ps_saw_year st then convert ptz (ps_year st) st
        else
          let year := tm_year (ps_tm st) in
          if year >? kyearmax - 1900 then PErr err_year
          else convert ptz (year + 1900) st
  end.

(** [parse(format, input, tz, &sec, &fs, &err)]: [POk (sec, fs)] or
    [PErr err]. *)
Definition parse (strptime : list ascii -> list ascii -> tm -> tm * option nat)
    (fmt inp : list ascii) (tz : time_zone) : presult (Z * Z) :=
  match walk strptime (S (List.length fmt)) fmt (strip_spaces inp) init_state with
  | PErr e => PErr e
  | POk (rest, st) => finalize tz rest st
  end.

(** ** Decision procedures for finite checks *)

(** [f x] holds for every [x] in [[lo, lo + n)]. *)
Fixpoint check_range (f : Z -> bool) (lo : Z) (n : nat) : bool :=
  match n with
  | O => true
  | S n => f lo && check_range f (lo + 1) n
  end.

(** One 400-year era of the calendar: every day-of-era decodes to a year
    of the era and a valid month and day, and encodes back. *)
Definition era_day_ok (doe : Z) : bool :=
  let '(yoe, m, d) := ymd_of_doe doe in
  (0 <=? yoe) && (yoe <? 400) && (1 <=? m) && (m <=? 12) && (1 <=? d) && (d <=? 31)
  && (doe_of_ymd yoe m d =? doe).

(** ** Concrete collaborators and the format of the round-trip law *)

(** A [strftime] that always returns 0 and a [strptime] that always fails;
    the formats used with them never reach the platform routines. *)
Definition no_strftime : nat -> list ascii -> tm -> list ascii := fun _ _ _ => [].
Definition no_strptime : list ascii -> list ascii -> tm -> tm * option nat :=
  fun _ _ t => (t, None).

(** [RFC3339_sec] *)
Definition rfc3339_sec : list ascii := str "%E4Y-%m-%dT%H:%M:%S%Ez".

(** The part of [parse] after [input.consume_leading_spaces()]: the walk
    from a given point, then [finalize]. *)
Definition run_from strptime (tz : time_zone) (fuel : nat) (fmt inp : list ascii)
    (st : pstate) : presult (Z * Z) :=
  match walk strptime fuel fmt inp st with
  | PErr e => PErr e
  | POk (rest, st') => finalize tz rest st'
  end.



(** ** [ParseInt] as the spec describes it

    Reference reading of "Decode" (spec 4.1): an optional leading '-',
    then up to [width] ASCII digits with the '-' counting against a
    positive [width] (a [width] of 0, or below, does not cap), failing if
    no digit was read or the value is outside [[min, max]]; the negative
    zero "-0" is refused as the code does. *)
Fixpoint take_digits (cap : option nat) (s : list ascii) : list Z * list ascii :=
  match cap with
  | Some O => ([], s)
  | _ =>
      match s with
      | c :: r =>
          if isdigit c then
            let '(ds, rest) := take_digits (option_map pred cap) r in
            (char_code c - 48 :: ds, rest)
          else ([], s)
      | [] => ([], [])
      end
  end.

Definition digits_value (ds : list Z) : Z := fold_left (fun acc d => acc * 10 + d) ds 0.

Definition ParseInt_spec (s : list ascii) (width min max : Z) : option (Z * list ascii) :=
  let '(neg, s) := match s with "-"%char :: s' => (true, s') | _ => (false, s) end in
  let cap := if width >? 0 then Some (Z.to_nat (width - (if neg then 1 else 0))) else None in
  let '(ds, rest) := take_digits cap s in
  match ds with
  | [] => None
  | _ =>
      let v := digits_value ds in
      if neg && (v =? 0) then None
      else
        let v := if neg then - v else v in
        if (min <=? v) && (v <=? max) then Some (v, rest) else None
  end.

(** ** Decimal renderings used to state the width law of %E#S *)

(** The [n] least significant decimal digits of [v], most significant
    first. *)
Definition pad_digits (n v : Z) : list ascii :=
  map (fun i => digit ((v / 10 ^ (n - 1 - i)) mod 10)) (map Z.of_nat (seq 0 (Z.to_nat n))).

(** The decimal numeral of [k], as written in a format string. *)
Definition decimal (k : Z) : list ascii := str (NilZero.string_of_int (Z.to_int k)).

(** ** Auxiliary definitions of the proofs *)


(** The body of [walk]'s loop taken one iteration at a time: [walk1]
    is one iteration, with [WNext] where [walk] calls itself, and
    [walk_iter k] runs [k] iterations that all continue. *)
Section Iter.
Variable strptime : list ascii -> list ascii -> tm -> tm * option nat.



End Iter.

(** The value of a run of decimal digits appended to [a]. *)
Definition acc_digits (a : Z) (ds : list Z) : Z := fold_left (fun acc d => acc * 10 + d) ds a.

(** The numeral of [k] is read back as [k] by the [ParseInt] of
    %E#S, leaving the [S]. *)
Definition width_numeral_ok (k : Z) : bool :=
  match decimal k with
  | d :: D =>
      isdigit d && forallb isdigit D &&
      match ParseInt int_min (d :: D ++ str "S") 0 0 1024 with
      | PI_ok v r => (v =? k) && (if list_eq_dec ascii_dec r (str "S") then true else false)
      | _ => false
      end
  | [] => false
  end.

(** Finite checks of the round-trip law: each field that format writes
    for RFC 3339 is read back by the matching parse step. *)
Definition pint_is (r : pint_result) (v : Z) : bool :=
  match r with PI_ok v' [] => v' =? v | _ => false end.

Definition year4_ok (y : Z) : bool :=
  match Format64 4 y with
  | [a; b; c; d] => negb (isspace a) && pint_is (ParseInt int64_min [a; b; c; d] 4 (-999) 9999) y
  | _ => false
  end.

Definition two_digits_ok (lo hi v : Z) : bool :=
  pint_is (ParseInt int_min (Format02d v) 2 lo hi) v.

Definition offset_ok (k : Z) : bool :=
  match FormatOffset (60 * k) (str ":") with
  | [o1; o2; o3; o4; o5; o6] =>
      match ParseOffset [o1; o2; o3; o4; o5; o6] (str ":") with
      | Some (o, []) => o =? 60 * k
      | _ => false
      end
  | _ => false
  end.

(** The digit values of a string of decimal digits, as ParseInt and
    ParseSubSeconds compute them ([*p - '0']). *)
Definition digit_vals (l : list ascii) : list Z := map (fun c => char_code c - 48) l.

(** * Proofs *)

Lemma check_range_spec (f : Z -> bool) (n : nat) :
  forall lo, check_range f lo n = true ->
  forall x, lo <= x < lo + Z.of_nat n -> f x = true.
Proof.
  induction n as [|n IH]; intros lo H x Hx; simpl in *.
  - lia.
  - apply andb_true_iff in H as [H1 H2].
    destruct (Z.eq_dec x lo) as [->|Hne]; [exact H1|].
    apply (IH (lo + 1) H2); lia.
Qed.

Lemma era_days_all : check_range era_day_ok 0 (Z.to_nat 146097) = true.
Proof. vm_compute. reflexivity. Qed.

Lemma era_day_spec (doe : Z) : 0 <= doe < 146097 ->
  let '(yoe, m, d) := ymd_of_doe doe in
  0 <= yoe < 400 /\ 1 <= m <= 12 /\ 1 <= d <= 31 /\ doe_of_ymd yoe m d = doe.
Proof.
  intros Hd.
  pose proof (check_range_spec _ _ 0 era_days_all doe ltac:(lia)) as H.
  unfold era_day_ok in H. destruct (ymd_of_doe doe) as [[yoe m] d].
  repeat rewrite andb_true_iff in H. rewrite !Z.leb_le, !Z.ltb_lt, !Z.eqb_eq in H.
  lia.
Qed.

Lemma civil_from_days_spec (z : Z) :
  let '(y, m, d) := civil_from_days z in
  1 <= m <= 12 /\ 1 <= d <= 31 /\ days_from_civil y m d = z.
Proof.
  unfold civil_from_days.
  set (z' := z + 719468).
  set (era := z' / 146097).
  assert (Hdoe : 0 <= z' - era * 146097 < 146097)
    by (subst era; pose proof (Z.mod_pos_bound z' 146097); rewrite Zmod_eq in H; lia).
  pose proof (era_day_spec _ Hdoe) as H.
  destruct (ymd_of_doe (z' - era * 146097)) as [[yoe m] d].
  destruct H as (Hy & Hm & Hd & He).
  split; [lia|split; [lia|]].
  unfold days_from_civil.
  set (y' := if m <=? 2 then _ else _).
  assert (Hy' : y' = yoe + era * 400)
    by (subst y'; destruct (m <=? 2) eqn:E; rewrite ?Z.leb_le, ?Z.leb_gt in E; lia).
  rewrite Hy'.
  assert (Hera : (yoe + era * 400) / 400 = era).
  { rewrite Z.div_add by lia. rewrite Z.div_small by lia. lia. }
  rewrite Hera. replace (yoe + era * 400 - era * 400) with yoe by lia.
  rewrite He. lia.
Qed.

Lemma days_from_civil_linear (y m d : Z) :
  days_from_civil y m d = days_from_civil y m 1 + (d - 1).
Proof. unfold days_from_civil, doe_of_ymd. lia. Qed.

Lemma civil_of_unix_ranges (t : Z) :
  let cs := civil_of_unix t in
  1 <= cs_month cs <= 12 /\ 1 <= cs_day cs <= 31 /\ 0 <= cs_hour cs <= 23
  /\ 0 <= cs_minute cs <= 59 /\ 0 <= cs_second cs <= 59.
Proof.
  unfold civil_of_unix.
  pose proof (civil_from_days_spec (t / 86400)) as H.
  destruct (civil_from_days (t / 86400)) as [[y m] d]. simpl.
  pose proof (Z.mod_pos_bound t 86400 ltac:(lia)).
  pose proof (Z.mod_pos_bound (t mod 86400) 3600 ltac:(lia)).
  pose proof (Z.mod_pos_bound (t mod 86400) 60 ltac:(lia)).
  assert (0 <= t mod 86400 / 3600 < 24)
    by (split; [apply Z.div_pos | apply Z.div_lt_upper_bound]; lia).
  assert (0 <= t mod 86400 mod 3600 / 60 < 60)
    by (split; [apply Z.div_pos | apply Z.div_lt_upper_bound]; lia).
  lia.
Qed.

Lemma unix_of_civil_of_unix (t : Z) : unix_of_civil (civil_of_unix t) = t.
Proof.
  unfold unix_of_civil, civil_of_unix.
  pose proof (civil_from_days_spec (t / 86400)) as H.
  destruct (civil_from_days (t / 86400)) as [[y m] d]. simpl.
  destruct H as (Hm & Hd & He).
  unfold unix_of_fields.
  rewrite (Z.div_small (m - 1) 12) by lia. rewrite (Z.mod_small (m - 1) 12) by lia.
  replace (y + 0) with y by lia. replace (m - 1 + 1) with m by lia.
  rewrite <- days_from_civil_linear, He.
  pose proof (Z.div_mod t 86400 ltac:(lia)).
  pose proof (Z.div_mod (t mod 86400) 3600 ltac:(lia)).
  pose proof (Z.div_mod (t mod 86400 mod 3600) 60 ltac:(lia)).
  assert (E : t mod 86400 mod 3600 mod 60 = t mod 86400 mod 60)
    by (apply Z.mod_mod_divide; exists 60; lia).
  lia.
Qed.

Lemma pad_digits_length n v : List.length (pad_digits n v) = Z.to_nat n.
Proof. unfold pad_digits. rewrite !length_map, length_seq. reflexivity. Qed.

Lemma pad_digits_last (b v : Z) : 0 <= b -> 0 <= v ->
  pad_digits (b + 1) v = pad_digits b (v / 10) ++ [digit (v mod 10)].
Proof.
  intros Hb Hv. unfold pad_digits.
  replace (Z.to_nat (b + 1)) with (Z.to_nat b + 1)%nat by lia.
  rewrite seq_app, !map_app. simpl. f_equal.
  - apply map_ext_in. intros i Hi. apply in_map_iff in Hi. destruct Hi as [j [<- Hj]].
    apply in_seq in Hj. f_equal. f_equal.
    replace (b + 1 - 1 - Z.of_nat j) with (1 + (b - 1 - Z.of_nat j)) by lia.
    rewrite Z.pow_add_r by lia. rewrite Z.div_div by (try apply Z.pow_pos_nonneg; lia).
    reflexivity.
  - f_equal. f_equal. replace (b + 1 - 1 - Z.of_nat (Z.to_nat b)) with 0 by lia.
    rewrite Z.pow_0_r, Z.div_1_r. reflexivity.
Qed.

Lemma seq_offset (n s : nat) : seq s n = map (Nat.add s) (seq 0 n).
Proof.
  revert s. induction n as [|n IH]; intros s; [reflexivity|].
  simpl. f_equal; [lia|]. rewrite IH, <- seq_shift, map_map.
  apply map_ext. intros; lia.
Qed.

Lemma pad_digits_split (a b v : Z) : 0 <= a -> 0 <= b -> 0 <= v < 10 ^ b ->
  pad_digits (a + b) v = repeat "0"%char (Z.to_nat a) ++ pad_digits b v.
Proof.
  intros Ha Hb Hv. unfold pad_digits.
  replace (Z.to_nat (a + b)) with (Z.to_nat a + Z.to_nat b)%nat by lia.
  rewrite seq_app, !map_app. f_equal.
  - rewrite map_map.
    replace (repeat "0"%char (Z.to_nat a)) with (map (fun _ : nat => "0"%char) (seq 0 (Z.to_nat a)))
      by (rewrite map_const, length_seq; reflexivity).
    apply map_ext_in. intros j Hj. apply in_seq in Hj.
    rewrite Z.div_small. reflexivity.
    split; [lia|]. eapply Z.lt_le_trans; [apply Hv|]. apply Z.pow_le_mono_r; lia.
  - rewrite (seq_offset _ (0 + _)). rewrite !map_map.
    apply map_ext_in. intros j Hj. apply in_seq in Hj. f_equal. f_equal. f_equal. f_equal. lia.
Qed.

Lemma format_digits_spec (fuel : nat) : forall (v : Z) (acc : list ascii),
  0 <= v < 10 ^ Z.of_nat fuel -> (1 <= fuel)%nat ->
  exists b, 1 <= b <= Z.of_nat fuel /\ v < 10 ^ b /\ (b = 1 \/ 10 ^ (b - 1) <= v) /\
    format_digits fuel v acc = pad_digits b v ++ acc.
Proof.
  induction fuel as [|f IH]; intros v acc Hv Hf; [lia|].
  simpl format_digits.
  rewrite (Z.rem_mod_nonneg v 10), (Z.quot_div_nonneg v 10) by lia.
  destruct (v / 10 =? 0) eqn:Q.
  - apply Z.eqb_eq in Q. exists 1. rewrite Nat2Z.inj_succ.
    assert (v < 10) by (pose proof (Z.div_mod v 10 ltac:(lia)); pose proof (Z.mod_pos_bound v 10 ltac:(lia)); lia).
    repeat split; try lia.
    + unfold pad_digits. simpl. rewrite Z.div_1_r. reflexivity.
  - apply Z.eqb_neq in Q.
    assert (Hq : 0 <= v / 10) by (apply Z.div_pos; lia).
    assert (Hf' : (1 <= f)%nat).
    { destruct f; [|lia]. simpl in Hv. exfalso. apply Q. apply Z.div_small. lia. }
    assert (Hlt : v / 10 < 10 ^ Z.of_nat f).
    { apply Z.div_lt_upper_bound; [lia|]. rewrite Nat2Z.inj_succ, Z.pow_succ_r in Hv by lia. lia. }
    destruct (IH (v / 10) (digit (v mod 10) :: acc) ltac:(lia) Hf') as [b [Hb [Hvb [Hmin E]]]].
    exists (b + 1). rewrite E. rewrite Nat2Z.inj_succ.
    pose proof (Z.div_mod v 10 ltac:(lia)). pose proof (Z.mod_pos_bound v 10 ltac:(lia)).
    assert (P : 10 ^ (b + 1) = 10 * 10 ^ b) by (rewrite Z.pow_add_r by lia; lia).
    repeat split; try lia.
    + right. replace (b + 1 - 1) with b by lia. destruct Hmin as [->|Hmin].
      * simpl. lia.
      * assert (P' : 10 ^ b = 10 * 10 ^ (b - 1)) by (rewrite <- Z.pow_succ_r by lia; f_equal; lia). lia.
    + rewrite pad_digits_last by lia. rewrite <- app_assoc. reflexivity.
Qed.

Lemma Format64_pad (n v : Z) : 1 <= n -> 0 <= v < 10 ^ n -> Format64 n v = pad_digits n v.
Proof.
  intros Hn Hv. unfold Format64.
  replace (v <? 0) with false by lia. cbv iota zeta.
  assert (Hfuel : 0 <= v < 10 ^ Z.of_nat (digits_fuel v)).
  { unfold digits_fuel. rewrite Nat2Z.inj_succ, Z2Nat.id by apply Z.log2_nonneg.
    split; [lia|]. destruct (Z.eq_dec v 0) as [->|Hv0]; [reflexivity|].
    destruct (Z.log2_spec v ltac:(lia)) as [_ H2].
    eapply Z.lt_le_trans; [exact H2|]. apply Z.pow_le_mono_l. split; [lia|lia]. }
  destruct (format_digits_spec (digits_fuel v) v [] Hfuel ltac:(unfold digits_fuel; lia))
    as [b [Hb [Hvb [Hmin E]]]].
  rewrite E, app_nil_r, pad_digits_length. simpl (List.length (@nil ascii)). rewrite Nat.sub_0_r.
  assert (b <= n).
  { destruct Hmin as [->|Hmin]; [lia|].
    destruct (Z.le_gt_cases b n) as [|Hgt]; [assumption|].
    assert (10 ^ n <= 10 ^ (b - 1)) by (apply Z.pow_le_mono_r; lia). lia. }
  replace n with ((n - b) + b) at 2 by lia.
  rewrite pad_digits_split by lia. f_equal. f_equal. lia.
Qed.


Lemma acc_digits_mono (ds : list Z) (a : Z) :
  0 <= a -> Forall (fun d => 0 <= d) ds -> a <= acc_digits a ds.
Proof.
  revert a. induction ds as [|d ds IH]; intros a Ha F; simpl; [lia|].
  inversion F; subst. specialize (IH (a * 10 + d) ltac:(lia) ltac:(assumption)). lia.
Qed.

Lemma take_digits_nonneg cap s : Forall (fun d => 0 <= d) (fst (take_digits cap s)).
Proof.
  revert cap. induction s as [|c r IH]; intros cap.
  - destruct cap as [[|n]|]; constructor.
  - destruct cap as [[|n]|]; simpl; [constructor| |];
      (destruct (isdigit c) eqn:D; [|constructor]);
      [specialize (IH (Some n))|specialize (IH None)];
      destruct (take_digits _ r) as [ds rest]; simpl in *; constructor; auto;
      unfold isdigit in D; apply andb_true_iff in D; destruct D as [D _]; apply Z.leb_le in D; lia.
Qed.

Lemma take_digits_length cap s :
  (List.length (snd (take_digits cap s)) + List.length (fst (take_digits cap s)) = List.length s)%nat.
Proof.
  revert cap. induction s as [|c r IH]; intros cap.
  - destruct cap as [[|n]|]; reflexivity.
  - destruct cap as [[|n]|]; simpl; [lia| |];
      (destruct (isdigit c) eqn:D; [|simpl; lia]);
      [specialize (IH (Some n))|specialize (IH None)];
      destruct (take_digits _ r) as [ds rest]; simpl in *; lia.
Qed.

Section Loop.
Variable kmin : Z.
Hypothesis Hk : kmin < 0.

Lemma ParseInt_loop_spec (s : list ascii) : forall (w a : Z),
  0 <= a <= - kmin -> (1 <= w \/ w <= 0) ->
  ParseInt_loop kmin w (- a) s =
  let '(ds, rest) := take_digits (if w >? 0 then Some (Z.to_nat w) else None) s in
  let v := acc_digits a ds in
  if v <=? - kmin then L_done (- v) rest else L_fail.
Proof.
  pose proof (Z.quot_rem' kmin 10) as QR.
  pose proof (Z.rem_bound_pos_neg kmin 10 ltac:(lia) ltac:(lia)) as RB.
  induction s as [|c r IH]; intros w a Ha Hw.
  - simpl. destruct (w >? 0) eqn:W.
    + destruct (Z.to_nat w) eqn:N; [lia|]. simpl. replace (a <=? - kmin) with true by lia. reflexivity.
    + simpl. replace (a <=? - kmin) with true by lia. reflexivity.
  - set (cap := if w >? 0 then Some (Z.to_nat w) else None).
    assert (Hcap : take_digits cap (c :: r) =
              if isdigit c then
                let '(ds, rest) := take_digits (option_map pred cap) r in
                (char_code c - 48 :: ds, rest)
              else ([], c :: r)).
    { subst cap. destruct (w >? 0) eqn:W; [|reflexivity].
      destruct (Z.to_nat w) eqn:N; [lia|reflexivity]. }
    rewrite Hcap. simpl ParseInt_loop.
    unfold isdigit.
    set (d := char_code c - 48).
    destruct ((d <? 0) || (10 <=? d)) eqn:ND.
    + replace ((48 <=? char_code c) && (char_code c <=? 57)) with false.
      2:{ symmetry. apply orb_true_iff in ND. apply andb_false_iff.
          destruct ND as [ND|ND]; [left|right]; apply Z.ltb_lt in ND || apply Z.leb_le in ND;
          subst d; apply Z.leb_gt; lia. }
      simpl. replace (a <=? - kmin) with true by lia. f_equal; lia.
    + apply orb_false_iff in ND. destruct ND as [ND1 ND2].
      apply Z.ltb_ge in ND1. apply Z.leb_gt in ND2.
      replace ((48 <=? char_code c) && (char_code c <=? 57)) with true.
      2:{ symmetry. apply andb_true_iff. split; apply Z.leb_le; subst d; lia. }
      fold d.
      assert (Hcap' : option_map pred cap =
                if w - 1 >? 0 then Some (Z.to_nat (w - 1)) else
                if w >? 0 then Some O else None).
      { subst cap. destruct (w >? 0) eqn:W; destruct (w - 1 >? 0) eqn:W1; simpl; f_equal; lia. }
      rewrite Hcap'.
      set (cap' := if w - 1 >? 0 then Some (Z.to_nat (w - 1)) else if w >? 0 then Some 0%nat else None).
      pose proof (take_digits_nonneg cap' r) as F.
      destruct (take_digits cap' r) as [ds rest] eqn:T. simpl in F.
      change (acc_digits a (d :: ds)) with (acc_digits (a * 10 + d) ds).
      pose proof (acc_digits_mono ds (a * 10 + d)) as M.
      destruct (- a <? Z.quot kmin 10) eqn:Q.
      * (* overflow already: the value leaves the range *)
        apply Z.ltb_lt in Q.
        replace (acc_digits (a * 10 + d) ds <=? - kmin) with false; [reflexivity|].
        symmetry. apply Z.leb_gt. specialize (M ltac:(lia) F). lia.
      * apply Z.ltb_ge in Q.
        replace (in_T kmin (- a * 10)) with true by (unfold in_T; symmetry; apply andb_true_iff; split; apply Z.leb_le; lia).
        simpl negb. cbv iota.
        destruct (- a * 10 <? kmin + d) eqn:Q2.
        -- apply Z.ltb_lt in Q2.
           replace (acc_digits (a * 10 + d) ds <=? - kmin) with false; [reflexivity|].
           symmetry. apply Z.leb_gt. specialize (M ltac:(lia) F). lia.
        -- apply Z.ltb_ge in Q2.
           replace (in_T kmin (- a * 10 - d)) with true by (unfold in_T; symmetry; apply andb_true_iff; split; apply Z.leb_le; lia).
           simpl negb. cbv iota.
           destruct ((w >? 0) && (w - 1 =? 0)) eqn:W.
           ++ apply andb_true_iff in W. destruct W as [W1 W2].
              assert (E : cap' = Some 0%nat) by (subst cap'; destruct (w - 1 >? 0) eqn:W3; [lia|]; rewrite W1; reflexivity).
              rewrite E in T. destruct r; cbn in T; inversion T; subst; simpl;
              replace (a * 10 + d <=? - kmin) with true by lia; f_equal; lia.
           ++ replace (- a * 10 - d) with (- (a * 10 + d)) by lia.
              rewrite IH by lia.
              assert (E : (let w' := if w >? 0 then w - 1 else w in
                           if w' >? 0 then Some (Z.to_nat w') else None) = cap').
              { subst cap'. cbv zeta. apply andb_false_iff in W.
                destruct (w >? 0) eqn:W2; destruct (w - 1 >? 0) eqn:W1; try reflexivity;
                  try (replace (w >? 0) with false by lia; reflexivity); lia. }
              cbv zeta in E.
              rewrite E, T. reflexivity.
Qed.
End Loop.

Lemma ParseInt_nonneg kmin c s width min max :
  c <> "-"%char ->
  ParseInt kmin (c :: s) width min max =
  match ParseInt_loop kmin width 0 (c :: s) with
  | L_ub => PI_ub
  | L_fail => PI_fail
  | L_done value cp =>
      if Nat.eqb (List.length cp) (List.length (c :: s)) then PI_fail
      else if value =? kmin then PI_fail
      else if negb (in_T kmin (- value)) then PI_ub
      else if negb ((min <=? - value) && (- value <=? max)) then PI_fail
      else PI_ok (- value) cp
  end.
Proof.
  intros H. unfold ParseInt.
  destruct c as [[] [] [] [] [] [] [] []]; try (exfalso; apply H; reflexivity); reflexivity.
Qed.

Lemma ParseInt_spec_nonneg c s width min max :
  c <> "-"%char ->
  ParseInt_spec (c :: s) width min max =
  let '(ds, rest) := take_digits (if width >? 0 then Some (Z.to_nat (width - 0)) else None) (c :: s) in
  match ds with
  | [] => None
  | _ => if (min <=? digits_value ds) && (digits_value ds <=? max)
         then Some (digits_value ds, rest) else None
  end.
Proof.
  intros H. unfold ParseInt_spec.
  destruct c as [[] [] [] [] [] [] [] []]; try (exfalso; apply H; reflexivity); reflexivity.
Qed.

(** C8 (amended): for a signed type with minimum [kmin] and bounds
    within the type, [ParseInt] equals the reading of the spec
    ([ParseInt_spec]: optional '-', then at most width digits, failing when
    no digit is read or the value is out of [min, max]) except that a
    negated zero such as "-0" is refused. *)
Theorem ParseInt_refines_spec (kmin : Z) (s : list ascii) (width min max : Z) :
  kmin < 0 -> kmin <= min -> max <= - kmin - 1 ->
  ParseInt kmin s width min max =
  match ParseInt_spec s width min max with
  | Some (v, rest) => PI_ok v rest
  | None => PI_fail
  end.
Proof.
  intros Hk Hmin Hmax.
  destruct s as [|c s'].
  - unfold ParseInt, ParseInt_spec. simpl.
    destruct (width >? 0); [destruct (Z.to_nat (width - 0)); reflexivity|reflexivity].
  - destruct (ascii_dec c "-"%char) as [->|Hc].
    + unfold ParseInt, ParseInt_spec. cbv iota beta zeta.
      destruct (width =? 1) eqn:W1.
      * apply Z.eqb_eq in W1. subst width. destruct s'; reflexivity.
      * apply Z.eqb_neq in W1. cbv iota.
        pose proof (ParseInt_loop_spec kmin Hk s' (if width >? 1 then width - 1 else width) 0 ltac:(lia)
          ltac:(destruct (width >? 1) eqn:W; lia)) as P.
        rewrite Z.opp_0 in P. rewrite P. clear P.
        assert (E : (let w := if width >? 1 then width - 1 else width in
                     if w >? 0 then Some (Z.to_nat w) else None) =
                    (if width >? 0 then Some (Z.to_nat (width - 1)) else None)).
        { cbv zeta. destruct (width >? 1) eqn:W; destruct (width >? 0) eqn:W0;
            try (exfalso; lia); try reflexivity.
          replace (width - 1 >? 0) with true by lia. reflexivity. }
        cbv zeta in E. simpl (if true then 1 else 0). rewrite E.
        pose proof (take_digits_length (if width >? 0 then Some (Z.to_nat (width - 1)) else None) s') as L.
        pose proof (take_digits_nonneg (if width >? 0 then Some (Z.to_nat (width - 1)) else None) s') as F.
        destruct (take_digits _ s') as [ds rest]. simpl in L, F.
        unfold digits_value. fold (acc_digits 0 ds).
        pose proof (acc_digits_mono ds 0 ltac:(lia) F) as M.
        destruct ds as [|d ds'].
        -- simpl. replace (0 <=? - kmin) with true by lia. simpl in L. rewrite Nat.add_0_r in L.
           rewrite L, Nat.eqb_refl. reflexivity.
        -- remember (acc_digits 0 (d :: ds')) as v eqn:Hv.
           destruct (v <=? - kmin) eqn:V.
           ++ apply Z.leb_le in V.
              replace (Nat.eqb (List.length rest) (List.length s')) with false
                by (symmetry; apply Nat.eqb_neq; simpl in L; lia).
              simpl negb. cbv iota.
              destruct (Z.eq_dec v 0) as [->|Hn]; [reflexivity|].
              replace (- v =? 0) with false by lia. replace (v =? 0) with false by lia.
              replace (in_T kmin (- v)) with true
                by (unfold in_T; symmetry; apply andb_true_iff; split; apply Z.leb_le; lia).
              simpl. destruct ((min <=? - v) && (- v <=? max));
                reflexivity.
           ++ apply Z.leb_gt in V. simpl andb.
              replace (v =? 0) with false by (symmetry; apply Z.eqb_neq; lia).
              replace (min <=? - v) with false by (symmetry; apply Z.leb_gt; lia).
              reflexivity.
    + rewrite ParseInt_nonneg, ParseInt_spec_nonneg, Z.sub_0_r by exact Hc.
      pose proof (ParseInt_loop_spec kmin Hk (c :: s') width 0 ltac:(lia) ltac:(lia)) as P.
      rewrite Z.opp_0 in P. rewrite P. clear P.
      pose proof (take_digits_length (if width >? 0 then Some (Z.to_nat width) else None) (c :: s')) as L.
      pose proof (take_digits_nonneg (if width >? 0 then Some (Z.to_nat width) else None) (c :: s')) as F.
      destruct (take_digits _ (c :: s')) as [ds rest]. simpl in L, F.
      unfold digits_value. fold (acc_digits 0 ds).
      pose proof (acc_digits_mono ds 0 ltac:(lia) F) as M.
      destruct ds as [|d ds'].
      * simpl. replace (0 <=? - kmin) with true by lia. simpl in L. rewrite Nat.add_0_r in L.
        rewrite L, Nat.eqb_refl. reflexivity.
      * remember (acc_digits 0 (d :: ds')) as v eqn:Hv.
        destruct (v <=? - kmin) eqn:V.
        -- apply Z.leb_le in V.
           replace (Nat.eqb (List.length rest) (List.length (c :: s'))) with false
             by (symmetry; apply Nat.eqb_neq; simpl in L |- *; lia).
           destruct (- v =? kmin) eqn:K.
           ++ apply Z.eqb_eq in K.
              replace (v <=? max) with false by (symmetry; apply Z.leb_gt; lia).
              rewrite andb_false_r. reflexivity.
           ++ apply Z.eqb_neq in K. rewrite Z.opp_involutive.
              replace (in_T kmin (v)) with true
                by (unfold in_T; symmetry; apply andb_true_iff; split; apply Z.leb_le; lia).
              simpl. destruct ((min <=? v) && (v <=? max));
                reflexivity.
        -- apply Z.leb_gt in V.
           replace (v <=? max) with false by (symmetry; apply Z.leb_gt; lia).
           rewrite andb_false_r. reflexivity.
Qed.

(** C8, counterexample: "-0" is refused although 0 lies in [min, max]. *)
Lemma ParseInt_negative_zero :
  ParseInt int_min (str "-0") 0 int_min int_max = PI_fail /\ int_min <= 0 <= int_max.
Proof. split; [vm_compute; reflexivity | unfold int_min, int_max; lia]. Qed.

(** C8, witness: "-42x" with width 3 and with no width. *)
Lemma ParseInt_refines_spec_witness :
  ParseInt int_min (str "-42x") 3 0 int_max = PI_fail /\
  ParseInt int_min (str "-42x") 0 (-100) int_max = PI_ok (-42) (str "x").
Proof.
  split; rewrite (ParseInt_refines_spec int_min); unfold int_min, int_max; try lia; vm_compute; reflexivity.
Defined.

Lemma digit_not (c : ascii) : isdigit c = true ->
  Ascii.eqb c "z"%char = false /\ Ascii.eqb c "*"%char = false /\ Ascii.eqb c "Y"%char = false /\
  Ascii.eqb c "S"%char = false /\ Ascii.eqb c ":"%char = false.
Proof.
  intros H. repeat split; apply Ascii.eqb_neq; intros ->; discriminate.
Qed.

(** Reduction of one iteration of [format_loop], keeping the specifier
    renderings folded. *)
Local Ltac go := cbn -[al tmv lookup Format64 FormatOffset star_subseconds n_subseconds
                       simple_spec flush format_finish FormatTM ParseInt format_loop int_min].

Lemma format_loop_E_digits_S strftime tp fs tz (d : ascii) (D : list ascii) (k : Z) (m : nat) :
  isdigit d = true -> forallb isdigit D = true ->
  ParseInt int_min (d :: D ++ ["S"%char]) 0 0 1024 = PI_ok k ["S"%char] ->
  format_loop strftime ("%"%char :: "E"%char :: d :: D ++ ["S"%char]) tp fs tz (S m) 0 0 [] =
  format_loop strftime ("%"%char :: "E"%char :: d :: D ++ ["S"%char]) tp fs tz m
    (List.length D + 4) (List.length D + 4) (n_subseconds tp fs tz true k).
Proof.
  intros Hd HD HP.
  destruct (digit_not d Hd) as [Hz [Hs [HY [HS Hc]]]].
  assert (H3 : Ascii.eqb (nth 0 (D ++ ["S"%char]) NUL) "Y"%char = false).
  { destruct D as [|d' D']; [reflexivity|]. simpl in HD |- *. apply andb_true_iff in HD.
    apply digit_not, HD. }
  cbn [format_loop]. unfold at_, is_c, L. go.
  rewrite ?Hz, ?Hs, ?Hc, ?H3. go.
  rewrite andb_false_r, Hd. rewrite HP.
  assert (LD : List.length (D ++ ["S"%char]) = S (List.length D))
    by (rewrite length_app; simpl; lia).
  rewrite LD. go.
  replace ((List.length D =? S (List.length D))%nat) with false by (symmetry; apply Nat.eqb_neq; lia).
  rewrite nth_middle. go. unfold flush. go.
  replace (List.length D + 4)%nat with (S (S (S (S (List.length D))))) by lia.
  reflexivity.
Qed.

Lemma format_loop_done strftime fmt tp fs tz m r :
  format_loop strftime fmt tp fs tz m (List.length fmt) (List.length fmt) r = r.
Proof.
  destruct m; simpl; unfold format_finish, L; rewrite ?Nat.eqb_refl; reflexivity.
Qed.


Lemma width_numerals_all : check_range width_numeral_ok 0 1025 = true.
Proof. vm_compute. reflexivity. Qed.

Lemma format_E_width_S strftime tp fs tz (k : Z) :
  0 <= k <= 1024 ->
  format strftime (str "%E" ++ decimal k ++ str "S") tp fs tz = n_subseconds tp fs tz true k.
Proof.
  intros Hk.
  pose proof (check_range_spec _ _ _ width_numerals_all k ltac:(lia)) as W.
  unfold width_numeral_ok in W.
  destruct (decimal k) as [|d D] eqn:E; [discriminate|].
  destruct (isdigit d) eqn:Hd; [|discriminate].
  destruct (forallb isdigit D) eqn:HD; [|discriminate].
  destruct (ParseInt int_min (d :: D ++ str "S") 0 0 1024) as [| |v r] eqn:HP; try discriminate.
  simpl in W. apply andb_true_iff in W. destruct W as [W1 W2].
  apply Z.eqb_eq in W1. subst v.
  destruct (list_eq_dec ascii_dec r _) as [Er|]; [subst r|discriminate].
  unfold format.
  replace (str "%E" ++ (d :: D) ++ str "S") with ("%"%char :: "E"%char :: d :: D ++ ["S"%char])
    by reflexivity.
  unfold L.
  rewrite (format_loop_E_digits_S strftime tp fs tz d D k) by assumption.
  replace (List.length D + 4)%nat with (List.length ("%"%char :: "E"%char :: d :: D ++ ["S"%char])).
  - apply format_loop_done.
  - simpl. rewrite length_app. simpl. lia.
Qed.

(** C7 (amended): for fs in [0, 10^15) and # in [0, 1024], %E#S gives
    the two-digit seconds, then for # > 0 a '.' and min(#, 18) digits of
    fs * 10^(w-15) or fs / 10^(15-w) with w = min(#, 18); so every # above
    18 gives the output of # = 18. *)
Theorem format_subseconds_width strftime tp fs tz :
  0 <= fs < 10 ^ 15 ->
  (forall k, 0 <= k <= 1024 ->
     format strftime (str "%E" ++ decimal k ++ str "S") tp fs tz =
     Format02d (cs_second (al_cs (lookup tz tp))) ++
     (if k =? 0 then []
      else "."%char :: pad_digits (Z.min k 18)
             (if 15 <=? Z.min k 18 then fs * 10 ^ (Z.min k 18 - 15)
              else fs / 10 ^ (15 - Z.min k 18)))) /\
  (forall k, 18 < k <= 1024 ->
     format strftime (str "%E" ++ decimal k ++ str "S") tp fs tz =
     format strftime (str "%E18S") tp fs tz).
Proof.
  intros Hfs.
  assert (G : forall k, 0 <= k <= 1024 ->
     format strftime (str "%E" ++ decimal k ++ str "S") tp fs tz =
     Format02d (cs_second (al_cs (lookup tz tp))) ++
     (if k =? 0 then []
      else "."%char :: pad_digits (Z.min k 18)
             (if 15 <=? Z.min k 18 then fs * 10 ^ (Z.min k 18 - 15)
              else fs / 10 ^ (15 - Z.min k 18)))).
  { intros k Hk. rewrite format_E_width_S by exact Hk.
    unfold n_subseconds, al, kExp10, kDigits10_64. f_equal.
    destruct (Z.eq_dec k 0) as [->|Hk0]; [reflexivity|].
    replace (k >? 0) with true by lia. replace (k =? 0) with false by lia.
    replace (if k >? 18 then 18 else k) with (Z.min k 18) by (rewrite Z.gtb_ltb; destruct (Z.ltb_spec 18 k); lia).
    f_equal.
    assert (Hm : 1 <= Z.min k 18 <= 18) by lia.
    destruct (Z.ltb_spec 15 (Z.min k 18)) as [Hgt|Hle].
    - replace (Z.min k 18 >? 15) with true by lia. replace (15 <=? Z.min k 18) with true by lia.
      apply Format64_pad; [lia|].
      assert (P : 10 ^ Z.min k 18 = 10 ^ 15 * 10 ^ (Z.min k 18 - 15))
        by (rewrite <- Z.pow_add_r by lia; f_equal; lia).
      assert (0 < 10 ^ (Z.min k 18 - 15)) by (apply Z.pow_pos_nonneg; lia).
      split; [lia|]. rewrite P. apply Z.mul_lt_mono_pos_r; lia.
    - replace (Z.min k 18 >? 15) with false by lia.
      rewrite Z.quot_div_nonneg by (try apply Z.pow_pos_nonneg; lia).
      assert (P : 10 ^ 15 = 10 ^ Z.min k 18 * 10 ^ (15 - Z.min k 18))
        by (rewrite <- Z.pow_add_r by lia; f_equal; lia).
      assert (0 < 10 ^ (15 - Z.min k 18)) by (apply Z.pow_pos_nonneg; lia).
      assert (B : 0 <= fs / 10 ^ (15 - Z.min k 18) < 10 ^ Z.min k 18).
      { split; [apply Z.div_pos; lia|]. apply Z.div_lt_upper_bound; lia. }
      destruct (Z.eqb_spec (Z.min k 18) 15) as [E15|N15].
      + replace (15 <=? Z.min k 18) with true by lia. rewrite E15 in *.
        rewrite Z.sub_diag, Z.pow_0_r, Z.div_1_r, Z.mul_1_r.
        rewrite Z.sub_diag, Z.pow_0_r, Z.div_1_r in B.
        apply Format64_pad; lia.
      + replace (15 <=? Z.min k 18) with false by lia.
        apply Format64_pad; lia. }
  split; [exact G|].
  intros k Hk. rewrite (G k ltac:(lia)).
  change (str "%E18S") with (str "%E" ++ decimal 18 ++ str "S").
  rewrite (G 18 ltac:(lia)).
  replace (Z.min k 18) with 18 by lia. replace (k =? 0) with false by lia. reflexivity.
Qed.

(** C7, witness: widths 20 and 18 at fs = 123456789012345. *)
Lemma format_subseconds_width_witness :
  0 <= 123456789012345 < 10 ^ 15 /\
  format no_strftime (str "%E" ++ decimal 20 ++ str "S") 0 123456789012345 utc_time_zone =
  format no_strftime (str "%E18S") 0 123456789012345 utc_time_zone.
Proof.
  split; [lia|].
  apply (proj2 (format_subseconds_width no_strftime 0 123456789012345 utc_time_zone ltac:(lia))).
  lia.
Defined.

(** C7, counterexample: %E19S at fs = 1 does not give the 18 digits of
    fs * 10^(19-15); the exponent is that of the capped width 18. *)
Lemma format_subseconds_width_counterexample :
  format no_strftime (str "%E19S") 0 1 utc_time_zone <>
  Format02d 0 ++ "."%char :: pad_digits 18 (1 * 10 ^ (19 - 15)).
Proof. vm_compute. discriminate. Qed.

(** C1 (amended): on the offsets 0, 3600, -3600, 5400, 5445 and -5445,
    %z, %:z, %::z and %:::z give the table of the spec except that %:z,
    which never shows seconds, gives +01:30 and -01:30 for 5445 and -5445;
    and an offset of -10 s renders as +00:00 under %:z. *)
Theorem format_offset_table : forall strftime,
  flat_map (fun off =>
    map (fun spec => format strftime (str spec) 0 0 (fixed_time_zone off))
        ["%z"; "%:z"; "%::z"; "%:::z"]%string)
    [0; 3600; -3600; 5400; 5445; -5445]
  = map str ["+0000"; "+00:00"; "+00:00:00"; "+00";
             "+0100"; "+01:00"; "+01:00:00"; "+01";
             "-0100"; "-01:00"; "-01:00:00"; "-01";
             "+0130"; "+01:30"; "+01:30:00"; "+01:30";
             "+0130"; "+01:30"; "+01:30:45"; "+01:30:45";
             "-0130"; "-01:30"; "-01:30:45"; "-01:30:45"]%string
  /\ format strftime (str "%:z") 0 0 (fixed_time_zone (-10)) = str "+00:00".
Proof. intros strftime. split; reflexivity. Qed.

(** C1, counterexample: %:z at offset 5445 is not +01:30:45, and at
    -5445 it is not -01:30:45, as the table of the spec has them. *)
Lemma format_offset_table_counterexample :
  format no_strftime (str "%:z") 0 0 (fixed_time_zone 5445) <> str "+01:30:45"
  /\ format no_strftime (str "%:z") 0 0 (fixed_time_zone (-5445)) <> str "-01:30:45".
Proof. split; vm_compute; discriminate. Qed.

(** C3: parse("%Y-%m-%dT%H:%M:%S", "2016-12-31T23:59:60", UTC) yields
    2017-01-01T00:00:00Z with zero subseconds, and whenever the parsed
    second is 60 the result is that of second 59, offset one less and
    zero subseconds. *)
Theorem parse_leap_second :
  (forall strptime,
     parse strptime (str "%Y-%m-%dT%H:%M:%S") (str "2016-12-31T23:59:60") utc_time_zone
     = POk (1483228800, 0))
  /\ civil_of_unix 1483228800 = mk_cs 2017 1 1 0 0 0
  /\ (forall tz rest st, tm_sec (ps_tm st) = 60 ->
        finalize tz rest st
        = finalize tz rest
            (set_subseconds (set_offset_value (set_tm st (set_tm_sec (ps_tm st) 59))
                                              (ps_offset st - 1)) 0)).
Proof.
  split; [intros; vm_compute; reflexivity|].
  split; [vm_compute; reflexivity|].
  intros tz rest [sy y [s mi h md mo yr wd yd dst] sub so off z th af ss ps] Hs.
  simpl in Hs. subst s.
  unfold finalize, adjust_afternoon, leap_second. simpl.
  destruct (th && af && (h <? 12)); reflexivity.
Qed.

(** C4: when normalization of the parsed fields changes the month or
    the day, the conversion fails with "Out-of-range field"; so do
    parse("%Y-%m-%d", "2023-09-31", UTC) and
    parse("%Y-%m-%d", "2023-02-29", UTC). *)
Theorem parse_rejects_normalized_day :
  (forall ptz year st,
     let t := ps_tm st in
     let cs := make_civil year (tm_mon t + 1) (tm_mday t) (tm_hour t) (tm_min t) (tm_sec t) in
     cs_month cs <> tm_mon t + 1 \/ cs_day cs <> tm_mday t ->
     convert ptz year st = PErr err_field)
  /\ (forall strptime,
        parse strptime (str "%Y-%m-%d") (str "2023-09-31") utc_time_zone = PErr err_field)
  /\ (forall strptime,
        parse strptime (str "%Y-%m-%d") (str "2023-02-29") utc_time_zone = PErr err_field).
Proof.
  split; [|split; intros; vm_compute; reflexivity].
  intros ptz year st t cs H. unfold convert. fold t. fold cs.
  destruct H as [H|H]; apply Z.eqb_neq in H; rewrite H.
  - reflexivity.
  - rewrite orb_true_r. reflexivity.
Qed.

(** C5: if the walk leaves input that is not all whitespace, parse
    fails with "Illegal trailing data in input string"; and whenever parse
    succeeds, the walk left only whitespace. *)
Theorem parse_requires_full_input : forall strptime fmt inp tz,
  (forall rest st,
     walk strptime (S (List.length fmt)) fmt (strip_spaces inp) init_state = POk (rest, st) ->
     strip_spaces rest <> [] ->
     parse strptime fmt inp tz = PErr err_trailing)
  /\ (forall r, parse strptime fmt inp tz = POk r ->
        exists rest st,
          walk strptime (S (List.length fmt)) fmt (strip_spaces inp) init_state = POk (rest, st)
          /\ strip_spaces rest = []).
Proof.
  intros strptime fmt inp tz. split.
  - intros rest st Hw Hr. unfold parse. rewrite Hw. unfold finalize.
    destruct (strip_spaces rest); [congruence|reflexivity].
  - intros r Hp. unfold parse in Hp.
    destruct (walk strptime (S (List.length fmt)) fmt (strip_spaces inp) init_state)
      as [e|[rest st]]; [discriminate|].
    exists rest, st. split; [reflexivity|].
    unfold finalize in Hp. destruct (strip_spaces rest); [reflexivity|discriminate].
Qed.

Lemma adjust_afternoon_percent_s (st : pstate) :
  ps_saw_percent_s (adjust_afternoon st) = ps_saw_percent_s st
  /\ ps_percent_s (adjust_afternoon st) = ps_percent_s st.
Proof.
  destruct st; unfold adjust_afternoon; simpl.
  destruct (_ && _ && _); split; reflexivity.
Qed.

Lemma convert_spec (ptz : time_zone) (year : Z) (st : pstate) :
  let t := ps_tm st in
  let cs := make_civil year (tm_mon t + 1) (tm_mday t) (tm_hour t) (tm_min t) (tm_sec t) in
  let off := ps_offset st in
  let tp := tz_pre ptz (civil_of_unix (unix_of_civil cs - off)) in
  cs_month cs = tm_mon t + 1 -> cs_day cs = tm_mday t ->
  unix_of_civil civil_second_min + Z.abs off <= unix_of_civil cs ->
  unix_of_civil cs <= unix_of_civil civil_second_max - Z.abs off ->
  tp <> time_point_max -> tp <> time_point_min ->
  convert ptz year st = POk (tp, ps_subseconds st).
Proof.
  intros t cs off tp Hm Hd Hlo Hhi Hmax Hmin.
  unfold convert. fold t. fold cs. fold off.
  rewrite (proj2 (Z.eqb_eq _ _) Hm), (proj2 (Z.eqb_eq _ _) Hd). simpl negb. cbn [orb].
  unfold civil_ltb, civil_add. rewrite !unix_of_civil_of_unix.
  replace ((off <? 0) && (unix_of_civil civil_second_max + off <? unix_of_civil cs)
           || (off >? 0) && (unix_of_civil cs <? unix_of_civil civil_second_min + off))
    with false
    by (destruct (Z.ltb_spec off 0), (Z.gtb_spec off 0),
          (Z.ltb_spec (unix_of_civil civil_second_max + off) (unix_of_civil cs)),
          (Z.ltb_spec (unix_of_civil cs) (unix_of_civil civil_second_min + off)); simpl; lia).
  replace (unix_of_civil cs + - off) with (unix_of_civil cs - off) by lia.
  fold tp.
  rewrite (proj2 (Z.eqb_neq _ _) Hmax), (proj2 (Z.eqb_neq _ _) Hmin). reflexivity.
Qed.

(** C6 (amended): when the walk has parsed %s, parse returns the %s value
    with zero subseconds whatever else was parsed (or fails on trailing
    data), and parse("%Y %s", "1999 0", UTC) is the Unix epoch. *)
Theorem parse_percent_s_overrides :
  (forall strptime fmt inp tz rest st,
     walk strptime (S (List.length fmt)) fmt (strip_spaces inp) init_state = POk (rest, st) ->
     ps_saw_percent_s st = true ->
     parse strptime fmt inp tz
     = match strip_spaces rest with
       | [] => POk (FromUnixSeconds (ps_percent_s st), 0)
       | _ => PErr err_trailing
       end)
  /\ (forall strptime,
        parse strptime (str "%Y %s") (str "1999 0") utc_time_zone = POk (0, 0)).
Proof.
  split; [|intros; vm_compute; reflexivity].
  intros strptime fmt inp tz rest st Hw Hs.
  unfold parse. rewrite Hw. unfold finalize.
  destruct (adjust_afternoon_percent_s st) as [E1 E2].
  destruct (strip_spaces rest); [|reflexivity].
  rewrite E1, Hs, E2. reflexivity.
Qed.

(** C6, counterexample: parse("%Y %s", "1999", UTC) succeeds with the
    start of 1999, not a %s value: a format containing %s does not force
    the %s result when the input runs out before %s. *)
Lemma parse_percent_s_unreached :
  match walk no_strptime (S (List.length (str "%Y %s"))) (str "%Y %s")
             (strip_spaces (str "1999")) init_state with
  | POk (_, st) =>
      ps_saw_percent_s st = false
      /\ parse no_strptime (str "%Y %s") (str "1999") utc_time_zone = POk (915148800, 0)
      /\ 915148800 <> FromUnixSeconds (ps_percent_s st)
  | PErr _ => False
  end.
Proof. vm_compute. split; [reflexivity|split; [reflexivity|discriminate]]. Qed.

(** C10: the walk stops without error once the input is exhausted; the
    defaults are 1970-01-01 00:00:00 with zero subseconds and no offset;
    and parse("%Y-%m-%d", "2023", tz) is 2023-01-01 00:00:00 in tz. *)
Theorem parse_defaults_on_exhausted_input :
  (forall strptime n fmt st, walk strptime n fmt [] st = POk ([], st))
  /\ (ps_saw_year init_state = false /\ tm_year (ps_tm init_state) + 1900 = 1970
      /\ tm_mon (ps_tm init_state) + 1 = 1 /\ tm_mday (ps_tm init_state) = 1
      /\ tm_hour (ps_tm init_state) = 0 /\ tm_min (ps_tm init_state) = 0
      /\ tm_sec (ps_tm init_state) = 0 /\ ps_subseconds init_state = 0
      /\ ps_saw_offset init_state = false /\ ps_offset init_state = 0)
  /\ (forall strptime tz,
        tz_pre tz (mk_cs 2023 1 1 0 0 0) <> time_point_max ->
        tz_pre tz (mk_cs 2023 1 1 0 0 0) <> time_point_min ->
        parse strptime (str "%Y-%m-%d") (str "2023") tz
        = POk (tz_pre tz (mk_cs 2023 1 1 0 0 0), 0)).
Proof.
  split; [intros strptime [|n] fmt st; reflexivity|].
  split; [repeat split; reflexivity|].
  intros strptime tz Hmax Hmin.
  unfold parse.
  change (S (List.length (str "%Y-%m-%d"))) with 9%nat.
  replace (walk strptime 9 (str "%Y-%m-%d") (strip_spaces (str "2023")) init_state)
    with (POk ([] : list ascii, set_year init_state 2023)) by (vm_compute; reflexivity).
  unfold finalize. cbn -[convert].
  rewrite convert_spec; vm_compute; auto; discriminate.
Qed.












Section ZoneFields.
Variables (st : pstate) (z : list ascii).
End ZoneFields.


Lemma zone_run_app (r s : list ascii) :
  Forall (fun c => isspace c = false) r ->
  match s with [] => True | c :: _ => isspace c = true end ->
  zone_run (r ++ s) = (r, s).
Proof.
  intros Hr Hs. induction Hr as [|c r Hc Hr IH].
  - destruct s as [|c s]; [reflexivity|]. simpl. rewrite Hs. reflexivity.
  - simpl. rewrite Hc, IH. reflexivity.
Qed.




Local Ltac go_fmt := cbn -[al tmv lookup Format64 Format02d FormatOffset star_subseconds n_subseconds
                         FormatTM ParseInt format_loop int_min al_cs al_offset
                         cs_year cs_month cs_day cs_hour cs_minute cs_second].

Lemma format_rfc3339 strftime tp fs tz :
  format strftime rfc3339_sec tp fs tz =
  Format64 4 (cs_year (al_cs (lookup tz tp))) ++ "-"%char ::
  Format02d (cs_month (al_cs (lookup tz tp))) ++ "-"%char ::
  Format02d (cs_day (al_cs (lookup tz tp))) ++ "T"%char ::
  Format02d (cs_hour (al_cs (lookup tz tp))) ++ ":"%char ::
  Format02d (cs_minute (al_cs (lookup tz tp))) ++ ":"%char ::
  Format02d (cs_second (al_cs (lookup tz tp))) ++
  FormatOffset (al_offset (lookup tz tp)) (str ":").
Proof.
  unfold format.
  assert (Hm : (8 <= S (L rfc3339_sec))%nat) by (unfold L; simpl; lia).
  revert Hm. generalize (S (L rfc3339_sec)) as m. intros m Hm.
  do 8 (destruct m as [|m]; [lia|]; cbn [format_loop]; unfold at_, is_c, L, flush, format_finish; go_fmt).
  unfold al. rewrite <- !app_assoc. reflexivity.
Qed.

Lemma ParseInt_loop_app kmin r (s : list ascii) : forall w v,
  Z.of_nat (List.length s) = w -> 1 <= w ->
  ParseInt_loop kmin w v (s ++ r) =
  match ParseInt_loop kmin w v s with
  | L_done v' rest => L_done v' (rest ++ r)
  | x => x
  end.
Proof.
  induction s as [|c s IH]; intros w v Hl Hw; simpl in Hl; [lia|].
  simpl.
  destruct (_ || _); [reflexivity|].
  destruct (v <? _); [reflexivity|].
  destruct (negb _); [reflexivity|].
  destruct (_ <? _); [reflexivity|].
  destruct (negb _); [reflexivity|].
  destruct ((w >? 0) && (w - 1 =? 0)) eqn:E; [reflexivity|].
  apply andb_false_iff in E.
  replace (if w >? 0 then w - 1 else w) with (w - 1) by (destruct (Z.gtb_spec w 0); lia).
  apply IH; [lia|]. destruct E as [E|E];
    [destruct (Z.gtb_spec w 0); [discriminate|lia] | apply Z.eqb_neq in E; lia].
Qed.

Lemma ParseInt_app kmin s r w min max v :
  ParseInt kmin s w min max = PI_ok v [] ->
  Z.of_nat (List.length s) = w -> 1 <= w ->
  ParseInt kmin (s ++ r) w min max = PI_ok v r.
Proof.
  intros H Hl Hw.
  destruct s as [|c s']; [simpl in Hl; lia|].
  destruct (ascii_dec c "-"%char) as [->|Hc].
  - unfold ParseInt in *. cbn iota beta in *. simpl (("-"%char :: s') ++ r) in *.
    cbn iota beta in *.
    destruct (w =? 1) eqn:E1; [discriminate|].
    apply Z.eqb_neq in E1. simpl in Hl.
    replace (if w >? 1 then w - 1 else w) with (w - 1) in * by (destruct (Z.gtb_spec w 1); lia).
    rewrite ParseInt_loop_app by lia.
    destruct (ParseInt_loop kmin (w - 1) 0 s') as [| |v' rest]; try discriminate.
    rewrite !length_app.
    replace (Nat.eqb (List.length rest + List.length r) (List.length s' + List.length r))
      with (Nat.eqb (List.length rest) (List.length s'))
      by (destruct (Nat.eqb_spec (List.length rest) (List.length s'));
          destruct (Nat.eqb_spec (List.length rest + List.length r) (List.length s' + List.length r)); lia).
    repeat match goal with
           | H : context [if ?b then _ else _] |- _ => destruct b; try discriminate
           end.
    injection H as -> ->. reflexivity.
  - simpl ((c :: s') ++ r). rewrite ParseInt_nonneg in * by exact Hc.
    change (c :: s' ++ r) with ((c :: s') ++ r).
    rewrite ParseInt_loop_app by lia.
    destruct (ParseInt_loop kmin w 0 (c :: s')) as [| |v' rest]; try discriminate.
    rewrite !length_app.
    replace (Nat.eqb (List.length rest + List.length r) (List.length (c :: s') + List.length r))
      with (Nat.eqb (List.length rest) (List.length (c :: s')))
      by (destruct (Nat.eqb_spec (List.length rest) (List.length (c :: s')));
          destruct (Nat.eqb_spec (List.length rest + List.length r) (List.length (c :: s') + List.length r)); lia).
    repeat match goal with
           | H : context [if ?b then _ else _] |- _ => destruct b; try discriminate
           end.
    injection H as -> ->. reflexivity.
Qed.

Lemma year4_all : check_range year4_ok (-999) 10999 = true.
Proof. vm_compute. reflexivity. Qed.
Lemma offset_all : check_range offset_ok (-1439) 2879 = true.
Proof. vm_compute. reflexivity. Qed.
Lemma month_all : check_range (two_digits_ok 1 12) 1 12 = true.
Proof. vm_compute. reflexivity. Qed.
Lemma day_all : check_range (two_digits_ok 1 31) 1 31 = true.
Proof. vm_compute. reflexivity. Qed.
Lemma hour_all : check_range (two_digits_ok 0 23) 0 24 = true.
Proof. vm_compute. reflexivity. Qed.
Lemma minute_all : check_range (two_digits_ok 0 59) 0 60 = true.
Proof. vm_compute. reflexivity. Qed.
Lemma second_all : check_range (two_digits_ok 0 60) 0 60 = true.
Proof. vm_compute. reflexivity. Qed.

Lemma two_digits_parse lo hi v r :
  two_digits_ok lo hi v = true ->
  ParseInt int_min (Format02d v ++ r) 2 lo hi = PI_ok v r.
Proof.
  unfold two_digits_ok, pint_is. intros H.
  destruct (ParseInt int_min (Format02d v) 2 lo hi) as [| |v' [|]] eqn:E; try discriminate.
  apply Z.eqb_eq in H. subst v'.
  apply ParseInt_app; [exact E | reflexivity | lia].
Qed.

Lemma div_range (a b lo hi : Z) :
  0 < b -> b * lo <= a -> a < b * (hi + 1) -> lo <= a / b <= hi.
Proof.
  intros Hb H1 H2. split.
  - apply Z.div_le_lower_bound; lia.
  - apply Z.lt_succ_r. apply Z.div_lt_upper_bound; lia.
Qed.

Lemma days_from_civil_bound (y m : Z) :
  -999 <= y <= 9999 -> 1 <= m <= 12 ->
  -1200000 <= days_from_civil y m 1 <= 3000000.
Proof.
  intros Hy Hm. unfold days_from_civil, doe_of_ymd.
  set (y' := if m <=? 2 then y - 1 else y).
  assert (Hy' : -1000 <= y' <= 9999) by (unfold y'; destruct (Z.leb_spec m 2); lia).
  set (era := y' / 400).
  assert (He : -3 <= era <= 24) by (apply div_range; lia).
  assert (Hr : 0 <= y' - era * 400 <= 399).
  { pose proof (Z.mod_pos_bound y' 400 ltac:(lia)). rewrite Z.mod_eq in H by lia.
    unfold era. lia. }
  set (yoe := y' - era * 400) in *.
  assert (0 <= yoe / 4 <= 100) by (apply div_range; lia).
  assert (0 <= yoe / 100 <= 4) by (apply div_range; lia).
  set (mp := if m >? 2 then m - 3 else m + 9).
  assert (Hmp : 0 <= mp <= 11) by (unfold mp; destruct (Z.gtb_spec m 2); lia).
  assert (0 <= (153 * mp + 2) / 5 <= 400) by (apply div_range; lia).
  lia.
Qed.

Lemma unix_of_civil_year_bound (cs : civil_second) :
  -999 <= cs_year cs <= 9999 -> 1 <= cs_month cs <= 12 -> 1 <= cs_day cs <= 31 ->
  0 <= cs_hour cs <= 23 -> 0 <= cs_minute cs <= 59 -> 0 <= cs_second cs <= 59 ->
  Z.abs (unix_of_civil cs) <= 1000000000000.
Proof.
  destruct cs as [y m d h mi s]. simpl. intros.
  unfold unix_of_civil, unix_of_fields. simpl.
  rewrite (Z.div_small (m - 1) 12) by lia. rewrite (Z.mod_small (m - 1) 12) by lia.
  replace (m - 1 + 1) with m by lia. replace (y + 0) with y by lia.
  pose proof (days_from_civil_bound y m ltac:(lia) ltac:(lia)).
  lia.
Qed.

Lemma year4_spec y : -999 <= y <= 9999 -> year4_ok y = true.
Proof.
  intros H. apply (check_range_spec _ _ _ year4_all).
  replace (-999 + Z.of_nat 10999) with 10000 by (vm_compute; reflexivity). lia.
Qed.

Lemma offset_spec k : -1439 <= k <= 1439 -> offset_ok k = true.
Proof. intros H. apply (check_range_spec _ _ _ offset_all). lia. Qed.

Lemma two_digits_spec lo hi v r :
  check_range (two_digits_ok lo hi) lo (Z.to_nat (hi - lo + 1)) = true ->
  lo <= v <= hi ->
  ParseInt int_min (Format02d v ++ r) 2 lo hi = PI_ok v r.
Proof.
  intros C H. apply two_digits_parse. apply (check_range_spec _ _ _ C). lia.
Qed.

Lemma consumed4 (a b c d : ascii) r : consumed (a :: b :: c :: d :: r) r = 4.
Proof. unfold consumed. change (List.length (a :: b :: c :: d :: r)) with (4 + List.length r)%nat. lia. Qed.

Local Ltac go2 := cbn -[ParseInt ParseOffset digit consumed finalize walk int_min int64_min].
Local Ltac sp := repeat match goal with
  | |- context [isspace ?c] =>
      let E := fresh in assert (E : isspace c = false) by reflexivity; rewrite E; clear E
  end.

(** One iteration of [walk] on the RFC 3339 input: the field parses are
    rewritten with the finite checks. *)
Local Ltac walk_step m FY Fmo Fd Fh Fmi Fs EO :=
  destruct m as [|m]; [lia|]; cbn [walk]; go2; sp; go2;
  unfold parse_tm_field, parse_offset_spec;
  rewrite ?FY, ?Fmo, ?Fd, ?Fh, ?Fmi, ?Fs, ?EO, ?consumed4; go2.

Lemma walk_rfc3339 strptime m (a b c d o1 o2 o3 o4 o5 o6 : ascii) (cs : civil_second) off :
  (13 <= m)%nat -> isspace a = false ->
  1 <= cs_month cs <= 12 -> 1 <= cs_day cs <= 31 -> 0 <= cs_hour cs <= 23 ->
  0 <= cs_minute cs <= 59 -> 0 <= cs_second cs <= 59 ->
  (forall r, ParseInt int64_min (a :: b :: c :: d :: r) 4 (-999) 9999 = PI_ok (cs_year cs) r) ->
  ParseOffset [o1; o2; o3; o4; o5; o6] (str ":") = Some (off, []) ->
  walk strptime m rfc3339_sec
    (strip_spaces ([a; b; c; d] ++ "-"%char :: Format02d (cs_month cs) ++ "-"%char ::
     Format02d (cs_day cs) ++ "T"%char :: Format02d (cs_hour cs) ++ ":"%char ::
     Format02d (cs_minute cs) ++ ":"%char :: Format02d (cs_second cs) ++ [o1; o2; o3; o4; o5; o6]))
    init_state =
  POk ([], mk_ps true (cs_year cs)
             (mk_tm (cs_second cs) (cs_minute cs) (cs_hour cs) (cs_day cs) (cs_month cs - 1) 70 4 0 0)
             0 true off (str "UTC") false false false 0).
Proof.
  intros Hm Ya Hmo Hd Hh Hmi Hs FY EO.
  cbn [app strip_spaces]. rewrite Ya. cbn beta iota.
  pose proof (fun r => two_digits_spec 1 12 (cs_month cs) r month_all Hmo) as Fmo.
  pose proof (fun r => two_digits_spec 1 31 (cs_day cs) r day_all Hd) as Fd.
  pose proof (fun r => two_digits_spec 0 23 (cs_hour cs) r hour_all Hh) as Fh.
  pose proof (fun r => two_digits_spec 0 59 (cs_minute cs) r minute_all Hmi) as Fmi.
  pose proof (fun r => two_digits_spec 0 60 (cs_second cs) r second_all ltac:(lia)) as Fs.
  cbn [Format02d app] in Fmo, Fd, Fh, Fmi, Fs.
  cbn -[ParseOffset] in EO.
  unfold Format02d.
  do 13 walk_step m FY Fmo Fd Fh Fmi Fs EO.
  reflexivity.
Qed.

Lemma finalize_rfc3339 tz t off (cs : civil_second) :
  cs = civil_of_unix t -> -86400 < off < 86400 -> -999 <= cs_year cs <= 9999 ->
  finalize tz []
    (mk_ps true (cs_year cs)
       (mk_tm (cs_second cs) (cs_minute cs) (cs_hour cs) (cs_day cs) (cs_month cs - 1) 70 4 0 0)
       0 true off (str "UTC") false false false 0) = POk (t - off, 0).
Proof.
  intros Ecs Hoff Hy.
  pose proof (civil_of_unix_ranges t) as (Hmo & Hd & Hh & Hmi & Hs). rewrite <- Ecs in *.
  assert (Et : unix_of_civil cs = t) by (rewrite Ecs; apply unix_of_civil_of_unix).
  pose proof (unix_of_civil_year_bound cs Hy Hmo Hd Hh Hmi Hs) as Hb.
  (unfold finalize, adjust_afternoon, leap_second; cbn -[convert]).
  replace (cs_second cs =? 60) with false by (symmetry; apply Z.eqb_neq; lia).
  cbn -[convert].
  assert (Emk : make_civil (cs_year cs) (cs_month cs - 1 + 1) (cs_day cs) (cs_hour cs)
                  (cs_minute cs) (cs_second cs) = cs).
  { unfold make_civil. replace (cs_month cs - 1 + 1) with (cs_month cs) by lia.
    change (civil_of_unix (unix_of_civil cs) = cs). rewrite Et, Ecs. reflexivity. }
  assert (Hmin : unix_of_civil civil_second_min < -1000000000000000) by (vm_compute; reflexivity).
  assert (Hmax : unix_of_civil civil_second_max > 1000000000000000) by (vm_compute; reflexivity).
  rewrite convert_spec; cbn [ps_tm ps_offset ps_subseconds tm_mon tm_mday tm_hour tm_min tm_sec];
    rewrite ?Emk; try lia;
    unfold utc_time_zone, clamp64, time_point_max, time_point_min; cbn [tz_pre];
    rewrite unix_of_civil_of_unix, Et; unfold int64_max, int64_min;
    destruct (Z.gtb_spec (t - off) (2 ^ 63 - 1)), (Z.ltb_spec (t - off) (- 2 ^ 63)); try lia.
  reflexivity.
Qed.

(** C2 (amended): for the format %E4Y-%m-%dT%H:%M:%S%Ez itself, an
    instant whose zone offset is a whole number of minutes strictly
    inside one day and whose local year lies in [-999, 9999] is formatted
    (with zero femtoseconds) and parsed back in the same zone to exactly
    that instant with zero femtoseconds. *)
Theorem format_parse_rfc3339 strftime strptime tp tz :
  tz_offset tz tp mod 60 = 0 -> -86400 < tz_offset tz tp < 86400 ->
  -999 <= cs_year (al_cs (lookup tz tp)) <= 9999 ->
  parse strptime rfc3339_sec (format strftime rfc3339_sec tp 0 tz) tz = POk (tp, 0).
Proof.
  intros Hmod Hoff Hy.
  rewrite format_rfc3339.
  unfold lookup in *. cbn [al_cs al_offset] in *.
  remember (tz_offset tz tp) as off eqn:Eoff.
  remember (civil_of_unix (tp + off)) as cs eqn:Ecs.
  pose proof (civil_of_unix_ranges (tp + off)) as (Hmo & Hd & Hh & Hmi & Hs). rewrite <- Ecs in *.
  (* the year *)
  pose proof (year4_spec (cs_year cs) Hy) as Y. unfold year4_ok in Y.
  destruct (Format64 4 (cs_year cs)) as [|a [|b [|c [|d [|]]]]]; try discriminate.
  apply andb_true_iff in Y as [Ya Yp]. apply negb_true_iff in Ya.
  unfold pint_is in Yp.
  destruct (ParseInt int64_min [a; b; c; d] 4 (-999) 9999) as [| |yv [|]] eqn:EY; try discriminate.
  apply Z.eqb_eq in Yp. subst yv.
  pose proof (fun r => ParseInt_app _ _ r _ _ _ _ EY eq_refl ltac:(lia)) as FY.
  (* the offset *)
  destruct (Z.mod_divide off 60 ltac:(lia)) as [H _]. destruct (H Hmod) as [k Hk]. clear H.
  pose proof (offset_spec k ltac:(lia)) as O.
  unfold offset_ok in O. rewrite (Z.mul_comm 60 k), <- Hk in O.
  destruct (FormatOffset off (str ":")) as [|o1 [|o2 [|o3 [|o4 [|o5 [|o6 [|]]]]]]]; try discriminate.
  destruct (ParseOffset [o1; o2; o3; o4; o5; o6] (str ":")) as [[o [|]]|] eqn:EO; try discriminate.
  apply Z.eqb_eq in O. subst o.
  (* parse *)
  unfold parse.
  rewrite (walk_rfc3339 strptime _ a b c d o1 o2 o3 o4 o5 o6 cs off); try assumption.
  2: (simpl; lia).
  cbn beta iota.
  rewrite (finalize_rfc3339 tz (tp + off) off cs Ecs Hoff Hy).
  f_equal. f_equal. lia.
Qed.

(** C2, counterexample: the round trip fails for an offset with seconds
    (+01:30:45 is written as +01:30 and the instant moves by 45 s), for
    the year 10000 (five digits do not fit %E4Y), and for a format that
    continues after %Ez with %d (the day digits are read as offset
    seconds). *)
Lemma format_parse_rfc3339_counterexample :
  parse no_strptime rfc3339_sec (format no_strftime rfc3339_sec 0 0 (fixed_time_zone 5445))
        (fixed_time_zone 5445) = POk (45, 0)
  /\ parse no_strptime rfc3339_sec (format no_strftime rfc3339_sec 253402300800 0 utc_time_zone)
           utc_time_zone = PErr err_parse
  /\ parse no_strptime (rfc3339_sec ++ str "%d")
           (format no_strftime (rfc3339_sec ++ str "%d") 0 0 utc_time_zone) utc_time_zone
     = POk (-1, 0).
Proof. split; [|split]; vm_compute; reflexivity. Qed.

(** C2, witness: the amended law at 2023-11-14T22:13:20Z in a zone one
    hour east of UTC. *)
Lemma format_parse_rfc3339_witness :
  tz_offset (fixed_time_zone 3600) 1700000000 mod 60 = 0
  /\ -86400 < tz_offset (fixed_time_zone 3600) 1700000000 < 86400
  /\ -999 <= cs_year (al_cs (lookup (fixed_time_zone 3600) 1700000000)) <= 9999
  /\ parse no_strptime rfc3339_sec (format no_strftime rfc3339_sec 1700000000 0 (fixed_time_zone 3600))
           (fixed_time_zone 3600) = POk (1700000000, 0).
Proof.
  assert (H1 : tz_offset (fixed_time_zone 3600) 1700000000 mod 60 = 0) by reflexivity.
  assert (H2 : -86400 < tz_offset (fixed_time_zone 3600) 1700000000 < 86400) by (simpl; lia).
  assert (H3 : -999 <= cs_year (al_cs (lookup (fixed_time_zone 3600) 1700000000)) <= 9999)
    by (vm_compute; split; discriminate).
  split; [exact H1|]. split; [exact H2|]. split; [exact H3|].
  apply format_parse_rfc3339; assumption.
Defined.

(** C3, witness: the leap-second rule on a state whose second is 60. *)
Lemma parse_leap_second_witness :
  tm_sec (ps_tm (set_tm init_state (set_tm_sec (ps_tm init_state) 60))) = 60
  /\ finalize utc_time_zone [] (set_tm init_state (set_tm_sec (ps_tm init_state) 60))
     = finalize utc_time_zone []
         (set_subseconds
            (set_offset_value
               (set_tm (set_tm init_state (set_tm_sec (ps_tm init_state) 60))
                  (set_tm_sec (ps_tm (set_tm init_state (set_tm_sec (ps_tm init_state) 60))) 59))
               (ps_offset (set_tm init_state (set_tm_sec (ps_tm init_state) 60)) - 1)) 0).
Proof.
  split; [reflexivity|].
  apply (proj2 (proj2 parse_leap_second)). reflexivity.
Defined.

(** C4, witness: September 31 of 2023 is rejected by the conversion. *)
Lemma parse_rejects_normalized_day_witness :
  cs_month (make_civil 2023 (8 + 1) 31 0 0 0) <> 8 + 1
  /\ convert utc_time_zone 2023
       (set_tm init_state (set_tm_mday (set_tm_mon (ps_tm init_state) 8) 31)) = PErr err_field.
Proof.
  split; [vm_compute; discriminate|].
  apply (proj1 parse_rejects_normalized_day). left. vm_compute. discriminate.
Defined.

(** C5, witness: "2023x" under %Y has trailing data; "2023 " parses. *)
Lemma parse_requires_full_input_witness :
  (exists st, walk no_strptime (S (List.length (str "%Y"))) (str "%Y") (strip_spaces (str "2023x"))
                init_state = POk (str "x", st)
     /\ strip_spaces (str "x") <> []
     /\ parse no_strptime (str "%Y") (str "2023x") utc_time_zone = PErr err_trailing)
  /\ (parse no_strptime (str "%Y") (str "2023 ") utc_time_zone = POk (1672531200, 0)
      /\ exists rest st,
           walk no_strptime (S (List.length (str "%Y"))) (str "%Y") (strip_spaces (str "2023 "))
             init_state = POk (rest, st)
           /\ strip_spaces rest = []).
Proof.
  split.
  - eexists. split; [reflexivity|]. split; [vm_compute; discriminate|].
    eapply (proj1 (parse_requires_full_input no_strptime (str "%Y") (str "2023x") utc_time_zone)).
    + reflexivity.
    + vm_compute. discriminate.
  - assert (H : parse no_strptime (str "%Y") (str "2023 ") utc_time_zone = POk (1672531200, 0))
      by (vm_compute; reflexivity).
    split; [exact H|].
    exact (proj2 (parse_requires_full_input no_strptime (str "%Y") (str "2023 ") utc_time_zone) _ H).
Defined.

(** C6, witness: %s overrides the year and the zone in
    parse("%Y %s", "1999 42"). *)
Lemma parse_percent_s_overrides_witness :
  exists rest st,
    walk no_strptime (S (List.length (str "%Y %s"))) (str "%Y %s") (strip_spaces (str "1999 42"))
      init_state = POk (rest, st)
    /\ ps_saw_percent_s st = true
    /\ parse no_strptime (str "%Y %s") (str "1999 42") (fixed_time_zone 3600)
       = match strip_spaces rest with
         | [] => POk (FromUnixSeconds (ps_percent_s st), 0)
         | _ => PErr err_trailing
         end.
Proof.
  do 2 eexists. split; [reflexivity|]. split; [reflexivity|].
  apply (proj1 parse_percent_s_overrides); reflexivity.
Defined.

(** C10, witness: the default-field law in UTC. *)
Lemma parse_defaults_on_exhausted_input_witness :
  tz_pre utc_time_zone (mk_cs 2023 1 1 0 0 0) <> time_point_max
  /\ tz_pre utc_time_zone (mk_cs 2023 1 1 0 0 0) <> time_point_min
  /\ parse no_strptime (str "%Y-%m-%d") (str "2023") utc_time_zone
     = POk (tz_pre utc_time_zone (mk_cs 2023 1 1 0 0 0), 0).
Proof.
  assert (H1 : tz_pre utc_time_zone (mk_cs 2023 1 1 0 0 0) <> time_point_max)
    by (vm_compute; discriminate).
  assert (H2 : tz_pre utc_time_zone (mk_cs 2023 1 1 0 0 0) <> time_point_min)
    by (vm_compute; discriminate).
  split; [exact H1|]. split; [exact H2|].
  apply (proj2 (proj2 parse_defaults_on_exhausted_input)); assumption.
Defined.

(** * Further properties of the format and parse helpers *)


Lemma char_code_digit d : 0 <= d < 10 -> char_code (digit d) = 48 + d.
Proof.
  intros H. unfold char_code, digit. rewrite nat_ascii_embedding by lia. lia.
Qed.

Lemma isdigit_digit d : 0 <= d < 10 -> isdigit (digit d) = true.
Proof.
  intros H. unfold isdigit. rewrite char_code_digit by lia.
  apply andb_true_iff; split; apply Z.leb_le; lia.
Qed.

Lemma pad_digits_cons (b v : Z) : 0 <= b ->
  pad_digits (b + 1) v = digit ((v / 10 ^ b) mod 10) :: pad_digits b v.
Proof.
  intros Hb. unfold pad_digits.
  replace (Z.to_nat (b + 1)) with (S (Z.to_nat b)) by lia.
  simpl seq. rewrite <- seq_shift. simpl map. f_equal.
  - replace (b + 1 - 1 - 0) with b by lia. reflexivity.
  - rewrite !map_map. apply map_ext. intros j.
    replace (b + 1 - 1 - Z.of_nat (S j)) with (b - 1 - Z.of_nat j) by lia. reflexivity.
Qed.

Lemma pad_digits_isdigit n v : forallb isdigit (pad_digits n v) = true.
Proof.
  unfold pad_digits. apply forallb_forall. intros c Hc.
  apply in_map_iff in Hc. destruct Hc as [i [<- _]].
  apply isdigit_digit. apply Z.mod_pos_bound. lia.
Qed.

Lemma take_digits_app (l r : list ascii) :
  forallb isdigit l = true -> isdigit (peek r) = false ->
  take_digits None (l ++ r) = (digit_vals l, r).
Proof.
  intros Hl Hr. induction l as [|c l IH].
  - destruct r as [|c r]; [reflexivity|]. simpl in *. rewrite Hr. reflexivity.
  - simpl in Hl. apply andb_true_iff in Hl. destruct Hl as [Hc Hl].
    simpl. rewrite Hc, IH by exact Hl. reflexivity.
Qed.

Lemma acc_pad (b : nat) : forall (a v : Z), 0 <= v ->
  acc_digits a (digit_vals (pad_digits (Z.of_nat b) v)) = a * 10 ^ Z.of_nat b + v mod 10 ^ Z.of_nat b.
Proof.
  induction b as [|b IH]; intros a v Hv.
  - unfold pad_digits. simpl. rewrite Z.mod_1_r. lia.
  - rewrite Nat2Z.inj_succ, <- Z.add_1_r, pad_digits_cons by lia.
    cbn [digit_vals map]. fold (digit_vals (pad_digits (Z.of_nat b) v)).
    assert (Hd : 0 <= (v / 10 ^ Z.of_nat b) mod 10 < 10) by (apply Z.mod_pos_bound; lia).
    rewrite char_code_digit by exact Hd.
    change (acc_digits a (?x :: ?l)) with (acc_digits (a * 10 + x) l).
    rewrite IH by exact Hv.
    rewrite Z.pow_add_r by lia. rewrite Z.pow_1_r.
    assert (HB : 0 < 10 ^ Z.of_nat b) by (apply Z.pow_pos_nonneg; lia).
    remember (10 ^ Z.of_nat b) as B.
    rewrite (Z.mod_eq v (B * 10)) by lia. rewrite <- Z.div_div by lia.
    pose proof (Z.div_mod v B ltac:(lia)) as E1.
    pose proof (Z.div_mod (v / B) 10 ltac:(lia)) as E2.
    rewrite (Z.mod_eq (v / B) 10) by lia. rewrite (Z.mod_eq v B) by lia.
    ring.
Qed.

Lemma format_digits_pad (v : Z) : 0 <= v ->
  exists b, 1 <= b /\ v < 10 ^ b /\ format_digits (digits_fuel v) v [] = pad_digits b v.
Proof.
  intros Hv0.
  assert (Hfuel : 0 <= v < 10 ^ Z.of_nat (digits_fuel v)).
  { unfold digits_fuel. rewrite Nat2Z.inj_succ, Z2Nat.id by apply Z.log2_nonneg.
    split; [lia|]. destruct (Z.eq_dec v 0) as [->|Hv]; [reflexivity|].
    destruct (Z.log2_spec v ltac:(lia)) as [_ H2].
    eapply Z.lt_le_trans; [exact H2|]. apply Z.pow_le_mono_l. lia. }
  destruct (format_digits_spec (digits_fuel v) v [] Hfuel ltac:(unfold digits_fuel; lia))
    as [b [Hb [Hvb [_ E]]]].
  exists b. rewrite E, app_nil_r. repeat split; lia.
Qed.

Lemma pad_widen (a b v : Z) : 0 <= a -> 0 <= b -> 0 <= v < 10 ^ b ->
  repeat "0"%char (Z.to_nat a) ++ pad_digits b v = pad_digits (a + b) v.
Proof. intros. symmetry. apply pad_digits_split; lia. Qed.

Lemma Format64_shape (w v : Z) : int64_min <= v ->
  exists n, 1 <= n /\ Z.abs v < 10 ^ n /\ w <= n + (if v <? 0 then 1 else 0) /\
    Format64 w v = (if v <? 0 then ["-"%char] else []) ++ pad_digits n (Z.abs v).
Proof.
  intros Hmin. unfold Format64.
  destruct (Z.ltb_spec v 0) as [Hneg|Hpos].
  - destruct (Z.eqb_spec v int64_min) as [->|Hne].
    + replace (- Z.rem int64_min 10) with 8 by reflexivity.
      replace (Z.quot int64_min 10) with (-922337203685477580) by reflexivity.
      replace (8 <? 0) with false by reflexivity. cbv iota zeta beta.
      replace (- -922337203685477580) with 922337203685477580 by reflexivity.
      replace (format_digits (digits_fuel 922337203685477580) 922337203685477580 [digit 8])
        with (pad_digits 19 9223372036854775808) by (vm_compute; reflexivity).
      rewrite pad_digits_length.
      replace (Z.of_nat (Z.to_nat 19 - List.length [digit 8])) with 18 by reflexivity.
      exists (Z.of_nat (Z.to_nat (w - 1 - 1 - 18)) + 19).
      replace (Z.abs int64_min) with 9223372036854775808 by reflexivity.
      repeat split; try lia.
      * apply Z.lt_le_trans with (10 ^ 19); [reflexivity|]. apply Z.pow_le_mono_r; lia.
      * simpl app. f_equal.
        rewrite <- (Nat2Z.id (Z.to_nat (w - 1 - 1 - 18))) at 1.
        apply pad_widen; [lia | lia | split; [lia | reflexivity]].
    + cbv iota zeta beta.
      destruct (format_digits_pad (- v) ltac:(lia)) as [b [Hb [Hvb E]]].
      rewrite E, pad_digits_length.
      exists (Z.of_nat (Z.to_nat (w - 1 - b)) + b).
      replace (Z.abs v) with (- v) by lia.
      repeat split; try lia.
      * eapply Z.lt_le_trans; [exact Hvb|]. apply Z.pow_le_mono_r; lia.
      * simpl app. f_equal. simpl (List.length (@nil ascii)). rewrite Nat.sub_0_r.
        rewrite (Z2Nat.id b) by lia.
        rewrite <- (Nat2Z.id (Z.to_nat (w - 1 - b))) at 1. apply pad_widen; lia.
  - cbv iota zeta beta.
    destruct (format_digits_pad v ltac:(lia)) as [b [Hb [Hvb E]]].
    rewrite E, pad_digits_length.
    exists (Z.of_nat (Z.to_nat (w - b)) + b).
    replace (Z.abs v) with v by lia.
    repeat split; try lia.
    * eapply Z.lt_le_trans; [exact Hvb|]. apply Z.pow_le_mono_r; lia.
    * simpl app. simpl (List.length (@nil ascii)). rewrite Nat.sub_0_r.
      rewrite (Z2Nat.id b) by lia.
      rewrite <- (Nat2Z.id (Z.to_nat (w - b))) at 1. apply pad_widen; lia.
Qed.

Lemma digit_vals_value (n v : Z) : 1 <= n -> 0 <= v < 10 ^ n ->
  acc_digits 0 (digit_vals (pad_digits n v)) = v.
Proof.
  intros Hn Hv. rewrite <- (Z2Nat.id n) by lia. rewrite acc_pad by lia.
  rewrite Z2Nat.id by lia. rewrite Z.mod_small by lia. lia.
Qed.

Lemma ParseInt_Format64 (w v min max : Z) (r : list ascii) :
  int64_min <= min <= v -> v <= max <= int64_max -> isdigit (peek r) = false ->
  ParseInt int64_min (Format64 w v ++ r) 0 min max = PI_ok v r.
Proof.
  intros Hmin Hmax Hr.
  assert (Hk : int64_min < 0) by reflexivity.
  destruct (Format64_shape w v ltac:(lia)) as [n [Hn [Hv [_ E]]]]. rewrite E.
  assert (HD : forallb isdigit (pad_digits n (Z.abs v)) = true) by apply pad_digits_isdigit.
  assert (HT := take_digits_app _ r HD Hr).
  assert (HA := digit_vals_value n (Z.abs v) Hn ltac:(lia)).
  pose proof (ParseInt_loop_spec int64_min Hk (pad_digits n (Z.abs v) ++ r) 0 0
                ltac:(change int64_min with (-9223372036854775808); lia) ltac:(lia)) as PL.
  change (- 0) with 0 in PL. replace (0 >? 0) with false in PL by reflexivity.
  cbv iota in PL. rewrite HT in PL. cbv zeta in PL. rewrite HA in PL.
  replace (Z.abs v <=? - int64_min) with true in PL
    by (symmetry; apply Z.leb_le; change int64_min with (-9223372036854775808) in *;
        change int64_max with 9223372036854775807 in *; lia).
  assert (Hlen : List.length (pad_digits n (Z.abs v)) <> O) by (rewrite pad_digits_length; lia).
  change int64_min with (-9223372036854775808) in *; change int64_max with 9223372036854775807 in *.
  destruct (Z.ltb_spec v 0) as [Hneg|Hpos].
  - simpl app. unfold ParseInt. cbv iota zeta beta.
    replace (0 >? 1) with false by reflexivity. replace (0 =? 1) with false by reflexivity.
    cbv iota. rewrite PL.
    rewrite length_app.
    replace (Nat.eqb (List.length r) (List.length (pad_digits n (Z.abs v)) + List.length r)) with false
      by (symmetry; apply Nat.eqb_neq; lia).
    replace (- Z.abs v =? 0) with false by lia. simpl negb. cbv iota.
    replace (- Z.abs v) with v by lia. unfold in_T.
    replace ((-9223372036854775808 <=? v) && (v <=? - -9223372036854775808 - 1)) with true by lia.
    replace ((min <=? v) && (v <=? max)) with true by lia. reflexivity.
  - simpl app.
    destruct (pad_digits n (Z.abs v)) as [|c D] eqn:ED; [exfalso; apply Hlen; reflexivity|].
    assert (Hc : c <> "-"%char).
    { intros ->. discriminate HD. }
    simpl app. rewrite ParseInt_nonneg by exact Hc.
    change (c :: D ++ r) with ((c :: D) ++ r). rewrite PL, length_app.
    replace (Nat.eqb (List.length r) (List.length (c :: D) + List.length r)) with false
      by (symmetry; apply Nat.eqb_neq; lia).
    replace (- Z.abs v =? -9223372036854775808) with false by lia.
    replace (- - Z.abs v) with v by lia. unfold in_T.
    replace ((-9223372036854775808 <=? v) && (v <=? - -9223372036854775808 - 1)) with true by lia.
    replace ((min <=? v) && (v <=? max)) with true by lia. reflexivity.
Qed.

Lemma isdigit_not_space (c : ascii) : isdigit c = true -> isspace c = false.
Proof.
  unfold isdigit, isspace. intros H. apply andb_true_iff in H. destruct H as [H1 H2].
  apply Z.leb_le in H1. apply Z.leb_le in H2.
  destruct (Z.eqb_spec (char_code c) 32); [lia|].
  destruct (Z.leb_spec 9 (char_code c)); destruct (Z.leb_spec (char_code c) 13); simpl; lia.
Qed.

Lemma Format64_head (w v : Z) : int64_min <= v ->
  exists c rest, Format64 w v = c :: rest /\ isspace c = false.
Proof.
  intros H. destruct (Format64_shape w v H) as [n [Hn [_ [_ E]]]]. rewrite E.
  destruct (v <? 0).
  - eexists _, _. split; [reflexivity|reflexivity].
  - simpl app. pose proof (pad_digits_isdigit n (Z.abs v)) as D.
    pose proof (pad_digits_length n (Z.abs v)) as Len.
    destruct (pad_digits n (Z.abs v)) as [|c rest]; [simpl in Len; lia|].
    exists c, rest. split; [reflexivity|].
    apply isdigit_not_space. simpl in D. apply andb_true_iff in D. apply D.
Qed.


Lemma format_percent_s strftime tp fs tz :
  format strftime (str "%s") tp fs tz = Format64 0 tp.
Proof.
  unfold format.
  assert (Hm : (2 <= S (L (str "%s")))%nat) by (unfold L; simpl; lia).
  revert Hm. generalize (S (L (str "%s"))) as m. intros m Hm.
  do 2 (destruct m as [|m]; [lia|]; cbn [format_loop]; unfold at_, is_c, L, flush, format_finish; go_fmt).
  reflexivity.
Qed.

(** X2: parsing "%s" reads back what formatting "%s" wrote: for every
    time point in the 64-bit range, whatever the zones and subseconds, the
    result is that time point with zero subseconds. *)
Theorem format_parse_percent_s strftime strptime tp fs tz ptz :
  int64_min <= tp <= int64_max ->
  parse strptime (str "%s") (format strftime (str "%s") tp fs tz) ptz = POk (tp, 0).
Proof.
  intros H. rewrite format_percent_s.
  pose proof (ParseInt_Format64 0 tp int64_min int64_max [] ltac:(lia) ltac:(lia) eq_refl) as P.
  rewrite app_nil_r in P.
  destruct (Format64_head 0 tp ltac:(lia)) as [c [rest [E Hc]]].
  rewrite E in *. unfold parse. simpl strip_spaces. rewrite Hc.
  cbn [walk]. simpl consume_leading_spaces. cbv iota zeta beta.
  simpl (negb (Ascii.eqb "%" "%")). cbv iota.
  unfold spec_step. simpl (Ascii.eqb "s" _). cbv iota. rewrite P.
  cbn [walk]. unfold finalize.
  reflexivity.
Qed.

Lemma ParseInt_nil kmin w min max : ParseInt kmin [] w min max = PI_fail.
Proof. reflexivity. Qed.

Lemma ParseInt_colon kmin r w min max : ParseInt kmin (":"%char :: r) w min max = PI_fail.
Proof.
  unfold ParseInt. cbn. replace (char_code ":" - 48) with 10 by reflexivity. cbn.
  rewrite Nat.eqb_refl. reflexivity.
Qed.

Lemma hour_parse v r : 0 <= v <= 23 -> ParseInt int_min (Format02d v ++ r) 2 0 23 = PI_ok v r.
Proof. intros. apply two_digits_spec; [exact hour_all | lia]. Qed.

Lemma minute_parse v r : 0 <= v <= 59 -> ParseInt int_min (Format02d v ++ r) 2 0 59 = PI_ok v r.
Proof. intros. apply two_digits_spec; [exact minute_all | lia]. Qed.

Lemma consumed_2 v r : consumed (Format02d v ++ r) r = 2.
Proof. unfold consumed. rewrite length_app. change (List.length (Format02d v)) with 2%nat. lia. Qed.

Lemma peek_Format02d v r : Ascii.eqb (peek (Format02d v ++ r)) ":"%char = false.
Proof.
  simpl. apply Ascii.eqb_neq. intros E.
  assert (Hd : -10 < Z.rem (Z.quot v 10) 10 < 10).
  { pose proof (Z.rem_bound_abs (Z.quot v 10) 10 ltac:(lia)). lia. }
  destruct (Z.le_gt_cases 0 (Z.rem (Z.quot v 10) 10)) as [Hd'|Hd'].
  - apply (f_equal char_code) in E. rewrite char_code_digit in E by lia.
    change (char_code ":") with 58 in E. lia.
  - unfold digit in E.
    apply (f_equal nat_of_ascii) in E. rewrite nat_ascii_embedding in E by lia.
    change (nat_of_ascii ":") with 58%nat in E. lia.
Qed.

Lemma hour_parse0 v : 0 <= v <= 23 -> ParseInt int_min (Format02d v) 2 0 23 = PI_ok v [].
Proof. intros. rewrite <- (app_nil_r (Format02d v)). apply hour_parse; lia. Qed.

Lemma minute_parse0 v : 0 <= v <= 59 -> ParseInt int_min (Format02d v) 2 0 59 = PI_ok v [].
Proof. intros. rewrite <- (app_nil_r (Format02d v)). apply minute_parse; lia. Qed.

Lemma consumed_2' v : consumed (Format02d v) [] = 2.
Proof. reflexivity. Qed.

Lemma peek_Format02d' v : Ascii.eqb (peek (Format02d v)) ":"%char = false.
Proof. rewrite <- (app_nil_r (Format02d v)). apply peek_Format02d. Qed.

Local Ltac po_tac :=
  repeat progress (
    cbn -[ParseInt Format02d consumed int_min];
    repeat first [ rewrite hour_parse by lia | rewrite hour_parse0 by lia
                 | rewrite minute_parse by lia | rewrite minute_parse0 by lia
                 | rewrite consumed_2 | rewrite consumed_2'
                 | rewrite peek_Format02d | rewrite peek_Format02d'
                 | rewrite ParseInt_nil | rewrite ParseInt_colon ]).

Local Ltac po_done :=
  repeat match goal with |- context [if ?b then _ else _] => destruct b end;
  f_equal; f_equal; lia.

Lemma PO_hm (c : ascii) (h m : Z) (mode : list ascii) :
  c = "+"%char \/ c = "-"%char -> mode = [] \/ mode = str ":" ->
  0 <= h <= 23 -> 0 <= m <= 59 ->
  ParseOffset (c :: Format02d h ++ Format02d m) mode
  = Some (if Ascii.eqb c "-"%char then - ((h * 60 + m) * 60) else (h * 60 + m) * 60, []).
Proof.
  intros Hc Hm Hh Hmi. unfold ParseOffset.
  destruct Hc as [-> | ->]; destruct Hm as [-> | ->]; po_tac; po_done.
Qed.

Lemma PO_hcm (c : ascii) (h m : Z) :
  c = "+"%char \/ c = "-"%char -> 0 <= h <= 23 -> 0 <= m <= 59 ->
  ParseOffset (c :: Format02d h ++ ":"%char :: Format02d m) (str ":")
  = Some (if Ascii.eqb c "-"%char then - ((h * 60 + m) * 60) else (h * 60 + m) * 60, []).
Proof.
  intros Hc Hh Hmi. unfold ParseOffset.
  destruct Hc as [-> | ->]; po_tac; po_done.
Qed.

Lemma PO_hcmcs (c : ascii) (h m s : Z) :
  c = "+"%char \/ c = "-"%char -> 0 <= h <= 23 -> 0 <= m <= 59 -> 0 <= s <= 59 ->
  ParseOffset (c :: Format02d h ++ ":"%char :: Format02d m ++ ":"%char :: Format02d s) (str ":")
  = Some (if Ascii.eqb c "-"%char then - ((h * 60 + m) * 60 + s) else (h * 60 + m) * 60 + s, []).
Proof.
  intros Hc Hh Hmi Hs. unfold ParseOffset.
  destruct Hc as [-> | ->]; po_tac; po_done.
Qed.

Lemma PO_h (c : ascii) (h : Z) :
  c = "+"%char \/ c = "-"%char -> 0 <= h <= 23 ->
  ParseOffset (c :: Format02d h) (str ":")
  = Some (if Ascii.eqb c "-"%char then - (h * 60 * 60) else h * 60 * 60, []).
Proof.
  intros Hc Hh. unfold ParseOffset.
  destruct Hc as [-> | ->]; po_tac; po_done.
Qed.

Lemma offset_parts (a : Z) : 0 <= a < 86400 ->
  0 <= Z.quot (Z.quot a 60) 60 <= 23 /\ 0 <= Z.rem (Z.quot a 60) 60 <= 59 /\ 0 <= Z.rem a 60 <= 59 /\
  Z.quot a 60 = Z.quot (Z.quot a 60) 60 * 60 + Z.rem (Z.quot a 60) 60 /\
  a = Z.quot a 60 * 60 + Z.rem a 60.
Proof.
  intros H.
  assert (0 <= a / 60) by (apply Z.div_pos; lia).
  rewrite (Z.quot_div_nonneg a 60), (Z.rem_mod_nonneg a 60) by lia.
  rewrite (Z.quot_div_nonneg (a / 60) 60), (Z.rem_mod_nonneg (a / 60) 60) by lia.
  pose proof (Z.div_mod a 60 ltac:(lia)). pose proof (Z.mod_pos_bound a 60 ltac:(lia)).
  pose proof (Z.div_mod (a / 60) 60 ltac:(lia)). pose proof (Z.mod_pos_bound (a / 60) 60 ltac:(lia)).
  assert (0 <= a / 60 < 1440) by (split; [apply Z.div_pos | apply Z.div_lt_upper_bound]; lia).
  assert (0 <= a / 60 / 60 <= 23) by (split; [apply Z.div_pos | apply Z.lt_succ_r, Z.div_lt_upper_bound]; lia).
  lia.
Qed.

Local Ltac po_form :=
  rewrite ?app_nil_r;
  rewrite ?PO_hm, ?PO_hcm, ?PO_hcmcs, ?PO_h
    by first [lia | left; reflexivity | right; reflexivity];
  cbn -[Z.mul Z.add Z.opp Z.quot]; f_equal; f_equal; lia.

(** X3: ParseOffset reads back FormatOffset for every offset strictly
    within a day: %z and %:z give the offset truncated toward zero to whole
    minutes, %::z and %:::z give the offset itself, and all input is
    consumed. *)
Theorem offset_format_parse (off : Z) : -86400 < off < 86400 ->
  ParseOffset (FormatOffset off []) [] = Some (Z.quot off 60 * 60, []) /\
  ParseOffset (FormatOffset off (str ":")) (str ":") = Some (Z.quot off 60 * 60, []) /\
  ParseOffset (FormatOffset off (str ":*")) (str ":") = Some (off, []) /\
  ParseOffset (FormatOffset off (str ":*:")) (str ":") = Some (off, []).
Proof.
  intros H. unfold FormatOffset.
  destruct (Z.ltb_spec off 0) as [Hn|Hp].
  - remember (- off) as a eqn:Ea. cbv iota zeta beta.
    destruct (offset_parts a ltac:(lia)) as [Hh [Hm [Hs [E1 E2]]]].
    remember (Z.quot (Z.quot a 60) 60) as h. remember (Z.rem (Z.quot a 60) 60) as m.
    remember (Z.rem a 60) as s.
    cbn -[Format02d ParseOffset Z.quot].
    replace off with (- a) by lia. rewrite Z.quot_opp_l by lia. rewrite E1.
    destruct (Z.eqb_spec h 0), (Z.eqb_spec m 0), (Z.eqb_spec s 0);
      cbn -[Format02d ParseOffset Z.mul Z.add Z.opp Z.quot];
      (split; [|split; [|split]]); po_form.
  - remember off as a eqn:Ea. cbv iota zeta beta.
    destruct (offset_parts a ltac:(lia)) as [Hh [Hm [Hs [E1 E2]]]].
    remember (Z.quot (Z.quot a 60) 60) as h. remember (Z.rem (Z.quot a 60) 60) as m.
    remember (Z.rem a 60) as s.
    cbn -[Format02d ParseOffset Z.quot].
    rewrite E1.
    destruct (Z.eqb_spec h 0), (Z.eqb_spec m 0), (Z.eqb_spec s 0);
      cbn -[Format02d ParseOffset Z.mul Z.add Z.opp Z.quot];
      (split; [|split; [|split]]); po_form.
Qed.
Lemma ParseInt_loop_suffix kmin (s : list ascii) : forall w a v r,
  ParseInt_loop kmin w a s = L_done v r -> exists p, s = p ++ r.
Proof.
  induction s as [|c s IH]; intros w a v r H.
  - simpl in H. injection H as _ <-. exists []. reflexivity.
  - simpl in H.
    repeat match type of H with
           | context [if ?b then _ else _] => destruct b; try discriminate
           end.
    all: first [ injection H as _ <-; first [exists []; reflexivity | exists [c]; reflexivity]
               | destruct (IH _ _ _ _ H) as [p ->]; exists (c :: p); reflexivity ].
Qed.

Local Ltac unpack H :=
  repeat match type of H with
         | context [if ?b then _ else _] => let E := fresh "E" in destruct b eqn:E; try discriminate
         | context [match ?x with L_ub => _ | L_fail => _ | L_done _ _ => _ end] =>
             let E := fresh "E" in destruct x eqn:E; try discriminate
         | context [match ?x with (_, _) => _ end] => destruct x
         end.

Lemma ParseInt_ok_inv kmin s w min max v r :
  ParseInt kmin s w min max = PI_ok v r ->
  min <= v <= max /\ exists p, p <> [] /\ s = p ++ r.
Proof.
  intros H. destruct s as [|c s']; [discriminate H|].
  destruct (ascii_dec c "-"%char) as [->|Hc].
  - unfold ParseInt in H. cbn iota beta in H.
    destruct (w =? 1); [discriminate|].
    destruct (ParseInt_loop kmin _ 0 s') as [| |value cp] eqn:EL; try discriminate.
    destruct (ParseInt_loop_suffix _ _ _ _ _ _ EL) as [p ->].
    unpack H. injection H as <- <-.
    rewrite negb_false_iff, andb_true_iff, !Z.leb_le in E3.
    split; [exact E3|]. exists ("-"%char :: p). split; [discriminate|reflexivity].
  - rewrite ParseInt_nonneg in H by exact Hc.
    destruct (ParseInt_loop kmin w 0 (c :: s')) as [| |value cp] eqn:EL; try discriminate.
    destruct (ParseInt_loop_suffix _ _ _ _ _ _ EL) as [p Ep].
    unpack H. injection H as <- <-.
    rewrite negb_false_iff, andb_true_iff, !Z.leb_le in E2.
    split; [exact E2|]. exists p. split; [|exact Ep].
    intros ->. simpl in Ep. rewrite Ep, Nat.eqb_refl in E. discriminate.
Qed.

(** X4: an offset returned by ParseOffset always lies strictly within
    one day, (-86400, 86400) seconds. *)
Lemma ParseOffset_range data mode o r :
  ParseOffset data mode = Some (o, r) -> -86400 < o < 86400.
Proof.
  intros H. unfold ParseOffset in H.
  destruct data as [|first data]; [discriminate|].
  repeat match type of H with
         | context [if ?b then _ else _] => let E := fresh "E" in destruct b eqn:E; try discriminate
         | context [match ?x with PI_ub => _ | PI_fail => _ | PI_ok _ _ => _ end] =>
             let E := fresh "P" in destruct x eqn:E; try discriminate
         | context [match ?x with (_, _) => _ end] => destruct x
         end.
  all: repeat match goal with
              | P : ParseInt _ _ _ _ _ = PI_ok _ _ |- _ => apply ParseInt_ok_inv in P; destruct P as [P _]
              end.
  all: injection H as <- _; lia.
Qed.


Lemma isdigit_code (c : ascii) :
  isdigit c = negb ((char_code c - 48 <? 0) || (10 <=? char_code c - 48)).
Proof.
  unfold isdigit.
  destruct (Z.leb_spec 48 (char_code c)), (Z.leb_spec (char_code c) 57),
           (Z.ltb_spec (char_code c - 48) 0), (Z.leb_spec 10 (char_code c - 48)); simpl; lia.
Qed.

Lemma ParseSubSeconds_loop_stop v e r : isdigit (peek r) = false ->
  ParseSubSeconds_loop v e r = (v, e, r).
Proof.
  destruct r as [|c r]; [reflexivity|]. simpl. rewrite isdigit_code.
  destruct (_ || _); [reflexivity|discriminate].
Qed.

Lemma ParseSubSeconds_loop_digits (ds r : list ascii) : forall v e,
  forallb isdigit ds = true -> isdigit (peek r) = false -> 0 <= e <= 15 ->
  ParseSubSeconds_loop v e (ds ++ r) =
  (acc_digits v (digit_vals (firstn (Z.to_nat (15 - e)) ds)),
   e + Z.of_nat (Nat.min (Z.to_nat (15 - e)) (List.length ds)), r).
Proof.
  induction ds as [|c ds IH]; intros v e Hd Hr He.
  - simpl app. rewrite ParseSubSeconds_loop_stop by exact Hr.
    rewrite firstn_nil. simpl. f_equal. f_equal. lia.
  - simpl in Hd. apply andb_true_iff in Hd. destruct Hd as [Hc Hd].
    simpl app. cbn [ParseSubSeconds_loop].
    rewrite isdigit_code in Hc. apply negb_true_iff in Hc. rewrite Hc.
    destruct (Z.ltb_spec e 15) as [Hlt|Hge].
    + rewrite IH by (auto; lia).
      replace (Z.to_nat (15 - e)) with (S (Z.to_nat (15 - (e + 1)))) by lia.
      simpl firstn. cbn [digit_vals map]. simpl List.length.
      change (acc_digits v (?x :: ?l)) with (acc_digits (v * 10 + x) l).
      f_equal. f_equal. lia.
    + rewrite IH by (auto; lia).
      replace (Z.to_nat (15 - e)) with O by lia. reflexivity.
Qed.

Lemma ParseSubSeconds_digits (ds r : list ascii) :
  forallb isdigit ds = true -> ds <> [] -> isdigit (peek r) = false ->
  ParseSubSeconds (ds ++ r) =
  Some (acc_digits 0 (digit_vals (firstn 15 ds)) * 10 ^ (15 - Z.of_nat (Nat.min 15 (List.length ds))), r).
Proof.
  intros Hd Hne Hr. unfold ParseSubSeconds.
  rewrite ParseSubSeconds_loop_digits by (auto; lia).
  rewrite length_app.
  replace (Nat.eqb (List.length r) (List.length ds + List.length r)) with false
    by (destruct ds; [contradiction|]; symmetry; apply Nat.eqb_neq; simpl; lia).
  unfold kExp10. reflexivity.
Qed.

Lemma ParseSubSeconds_loop_bound (s : list ascii) : forall v e,
  0 <= v < 10 ^ e -> 0 <= e <= 15 ->
  let '(v', e', _) := ParseSubSeconds_loop v e s in 0 <= v' < 10 ^ e' /\ 0 <= e' <= 15.
Proof.
  induction s as [|c s IH]; intros v e Hv He; simpl; [lia|].
  destruct (_ || _) eqn:D; [lia|].
  apply orb_false_iff in D. destruct D as [D1 D2]. apply Z.ltb_ge in D1. apply Z.leb_gt in D2.
  destruct (Z.ltb_spec e 15).
  - apply IH; [|lia]. rewrite Z.pow_add_r by lia. lia.
  - apply IH; lia.
Qed.

(** X8: a value returned by ParseSubSeconds is always a femtosecond
    count in [0, 10^15). *)
Lemma ParseSubSeconds_range (s r : list ascii) (v : Z) :
  ParseSubSeconds s = Some (v, r) -> 0 <= v < 10 ^ 15.
Proof.
  unfold ParseSubSeconds. intros H.
  pose proof (ParseSubSeconds_loop_bound s 0 0 ltac:(simpl; lia) ltac:(lia)) as B.
  destruct (ParseSubSeconds_loop 0 0 s) as [[v' e'] cp].
  destruct (Nat.eqb _ _); [discriminate|]. injection H as <- _.
  unfold kExp10. change (0 <= v' * 10 ^ (15 - e') < 10 ^ 15). destruct B as [Bv Be].
  assert (P : 10 ^ e' * 10 ^ (15 - e') = 10 ^ 15) by (rewrite <- Z.pow_add_r by lia; f_equal; lia).
  assert (0 < 10 ^ (15 - e')) by (apply Z.pow_pos_nonneg; lia).
  assert (v' * 10 ^ (15 - e') <= (10 ^ e' - 1) * 10 ^ (15 - e'))
    by (apply Z.mul_le_mono_nonneg_r; lia).
  split; [apply Z.mul_nonneg_nonneg; lia|]. rewrite Z.mul_sub_distr_r in H0. lia.
Qed.

Lemma count_while_prefix (p : ascii -> bool) (l : list ascii) :
  forallb p (firstn (count_while p l) l) = true /\ (count_while p l <= List.length l)%nat.
Proof.
  induction l as [|c l IH]; [split; [reflexivity|simpl; lia]|].
  simpl. destruct (p c) eqn:P; simpl; [|split; [reflexivity|lia]].
  rewrite P. destruct IH as [IH1 IH2]. split; [exact IH1|lia].
Qed.

Lemma all_zeros (x : list ascii) :
  forallb (fun c => Ascii.eqb c "0"%char) x = true -> x = repeat "0"%char (List.length x).
Proof.
  induction x as [|c x IH]; [reflexivity|]. simpl. intros H.
  apply andb_true_iff in H. destruct H as [H1 H2].
  apply Ascii.eqb_eq in H1. subst c. f_equal. apply IH, H2.
Qed.

Lemma trim_split (l : list ascii) :
  l = trim_trailing_zeros l ++ repeat "0"%char (count_while (fun c => Ascii.eqb c "0"%char) (rev l)).
Proof.
  unfold trim_trailing_zeros.
  set (k := count_while (fun c => Ascii.eqb c "0"%char) (rev l)).
  destruct (count_while_prefix (fun c => Ascii.eqb c "0"%char) (rev l)) as [H1 H2]. fold k in H1, H2.
  apply all_zeros in H1. rewrite length_firstn in H1. replace (Nat.min k (List.length (rev l))) with k in H1 by lia.
  rewrite <- (rev_involutive l) at 1. rewrite <- (firstn_skipn k (rev l)) at 1.
  rewrite rev_app_distr, H1, rev_repeat. reflexivity.
Qed.

Lemma acc_digits_app (a : Z) (l1 l2 : list Z) :
  acc_digits a (l1 ++ l2) = acc_digits (acc_digits a l1) l2.
Proof. unfold acc_digits. apply fold_left_app. Qed.

Lemma acc_digits_zeros (k : nat) : forall a,
  acc_digits a (digit_vals (repeat "0"%char k)) = a * 10 ^ Z.of_nat k.
Proof.
  induction k as [|k IH]; intros a; [simpl; lia|].
  cbn [repeat digit_vals map]. fold (digit_vals (repeat "0"%char k)).
  change (acc_digits a (?x :: ?l)) with (acc_digits (a * 10 + x) l).
  rewrite IH. change (char_code "0" - 48) with 0.
  rewrite Nat2Z.inj_succ, Z.pow_succ_r by lia. lia.
Qed.

Lemma forallb_app_l {A} (p : A -> bool) (l1 l2 : list A) :
  forallb p (l1 ++ l2) = true -> forallb p l1 = true.
Proof. rewrite forallb_app. intros H. apply andb_true_iff in H. apply H. Qed.

(** X9: ParseSubSeconds reads back what %E*f writes: for a femtosecond
    count in [0, 10^15) followed by a non-digit, the count is recovered
    exactly and the rest is left. *)
Theorem star_subseconds_parse tp fs tz (r : list ascii) :
  0 <= fs < 10 ^ 15 -> isdigit (peek r) = false ->
  ParseSubSeconds (star_subseconds tp fs tz false ++ r) = Some (fs, r).
Proof.
  intros Hfs Hr. unfold star_subseconds.
  rewrite Format64_pad by lia.
  pose proof (trim_split (pad_digits 15 fs)) as E.
  set (k := count_while _ _) in E.
  pose proof (digit_vals_value 15 fs ltac:(lia) Hfs) as V.
  pose proof (pad_digits_isdigit 15 fs) as D.
  pose proof (pad_digits_length 15 fs) as Len.
  rewrite E in V, D, Len. rewrite length_app, repeat_length in Len.
  unfold digit_vals in V. rewrite map_app in V. fold (digit_vals (trim_trailing_zeros (pad_digits 15 fs))) in V.
  fold (digit_vals (repeat "0"%char k)) in V.
  rewrite acc_digits_app, acc_digits_zeros in V.
  apply forallb_app_l in D.
  destruct (trim_trailing_zeros (pad_digits 15 fs)) as [|c t] eqn:T.
  - simpl in V. change (["0"%char] ++ r) with (["0"%char] ++ r).
    rewrite ParseSubSeconds_digits by (reflexivity || discriminate || exact Hr).
    simpl. f_equal. f_equal. lia.
  - rewrite ParseSubSeconds_digits by (exact D || discriminate || exact Hr).
    rewrite firstn_all2 by (simpl in *; lia).
    f_equal. f_equal. rewrite <- V.
    f_equal. f_equal. simpl List.length in *. lia.
Qed.

Lemma pad_digits_shift (j : nat) : forall (v : Z), 0 <= v ->
  pad_digits (15 + Z.of_nat j) (v * 10 ^ Z.of_nat j) = pad_digits 15 v ++ repeat "0"%char j.
Proof.
  induction j as [|j IH]; intros v Hv.
  - change (Z.of_nat 0) with 0. rewrite Z.add_0_r, Z.pow_0_r, Z.mul_1_r, app_nil_r. reflexivity.
  - rewrite Nat2Z.inj_succ, <- Z.add_1_r, Z.add_assoc.
    rewrite pad_digits_last by (try apply Z.mul_nonneg_nonneg; try apply Z.pow_nonneg; lia).
    rewrite Z.pow_add_r, Z.pow_1_r by lia.
    replace (v * (10 ^ Z.of_nat j * 10)) with (v * 10 ^ Z.of_nat j * 10) by ring.
    rewrite Z.div_mul, Z.mod_mul by lia.
    rewrite IH by exact Hv. replace (S j) with (j + 1)%nat by lia.
    rewrite repeat_app, app_assoc. reflexivity.
Qed.

(** X10: ParseSubSeconds on what %E#f writes for n >= 1 gives the
    femtosecond count truncated to n digits (n <= 15), or the count itself
    (n > 15). *)
Theorem n_subseconds_parse tp fs tz (n : Z) (r : list ascii) :
  0 <= fs < 10 ^ 15 -> 1 <= n -> isdigit (peek r) = false ->
  ParseSubSeconds (n_subseconds tp fs tz false n ++ r)
  = Some (if n <=? 15 then Z.quot fs (10 ^ (15 - n)) * 10 ^ (15 - n) else fs, r).
Proof.
  intros Hfs Hn Hr. unfold n_subseconds.
  replace (n >? 0) with true by lia. cbv zeta iota beta. unfold kDigits10_64, kExp10.
  destruct (Z.leb_spec n 15) as [Hle|Hgt].
  - replace (n >? 18) with false by lia. replace (n >? 15) with false by lia.
    assert (Hp : 0 < 10 ^ (15 - n)) by (apply Z.pow_pos_nonneg; lia).
    assert (Hq : 0 <= Z.quot fs (10 ^ (15 - n)) < 10 ^ n).
    { rewrite Z.quot_div_nonneg by lia. split; [apply Z.div_pos; lia|].
      apply Z.div_lt_upper_bound; [lia|]. rewrite <- Z.pow_add_r by lia.
      replace (15 - n + n) with 15 by lia. lia. }
    rewrite Format64_pad by lia.
    rewrite ParseSubSeconds_digits; [| apply pad_digits_isdigit
                                    | rewrite <- length_zero_iff_nil, pad_digits_length; lia
                                    | exact Hr].
    rewrite firstn_all2 by (rewrite pad_digits_length; lia).
    rewrite digit_vals_value by lia. rewrite pad_digits_length.
    replace (Z.of_nat (Nat.min 15 (Z.to_nat n))) with n by lia. reflexivity.
  - set (n' := if n >? 18 then 18 else n).
    assert (Hn' : 16 <= n' <= 18) by (unfold n'; destruct (Z.gtb_spec n 18); lia).
    replace (n' >? 15) with true by lia.
    replace n' with (15 + Z.of_nat (Z.to_nat (n' - 15))) by lia.
    replace (15 + Z.of_nat (Z.to_nat (n' - 15)) - 15) with (Z.of_nat (Z.to_nat (n' - 15))) by lia.
    assert (Hp : 0 < 10 ^ Z.of_nat (Z.to_nat (n' - 15))) by (apply Z.pow_pos_nonneg; lia).
    rewrite Format64_pad.
    2: lia.
    2: { split; [apply Z.mul_nonneg_nonneg; lia|].
         rewrite Z.pow_add_r by lia. apply Z.mul_lt_mono_pos_r; lia. }
    rewrite pad_digits_shift by lia.
    rewrite ParseSubSeconds_digits;
      [| rewrite forallb_app, pad_digits_isdigit; simpl;
         clear; induction (Z.to_nat (n' - 15)); [reflexivity | exact IHn0]
       | rewrite <- length_zero_iff_nil, length_app, pad_digits_length; lia
       | exact Hr].
    rewrite firstn_app, pad_digits_length. replace (15 - Z.to_nat 15)%nat with O by reflexivity.
    rewrite firstn_O, app_nil_r, firstn_all2 by (rewrite pad_digits_length; lia).
    rewrite digit_vals_value by lia. rewrite length_app, pad_digits_length, repeat_length.
    replace (Nat.min 15 (Z.to_nat 15 + Z.to_nat (n' - 15))) with 15%nat by lia.
    do 3 f_equal. simpl. lia.
Qed.


(** X6: ParseZone takes the whole maximal run of non-space characters
    and returns the rest; it fails exactly when that run is empty (empty
    input, or input starting with a space). *)
Theorem ParseZone_spec :
  (forall z r, z <> [] -> Forall (fun c => isspace c = false) z ->
     match r with [] => True | c :: _ => isspace c = true end ->
     ParseZone (z ++ r) = Some (z, r))
  /\ (forall s, match s with [] => True | c :: _ => isspace c = true end -> ParseZone s = None).
Proof.
  split.
  - intros z r Hz Hs Hr. unfold ParseZone. rewrite zone_run_app by assumption.
    destruct z; [contradiction|reflexivity].
  - intros [|c s] H; [reflexivity|]. unfold ParseZone. simpl. rewrite H. reflexivity.
Qed.

Lemma count_while_all (p : ascii -> bool) (l : list ascii) :
  forallb p l = true -> count_while p l = List.length l.
Proof.
  induction l as [|c l IH]; [reflexivity|]. simpl. intros H.
  apply andb_true_iff in H. destruct H as [H1 H2]. rewrite H1, IH by exact H2. reflexivity.
Qed.

(** X11: a format with no '%' is copied to the output unchanged. *)
Theorem format_literal strftime fmt tp fs tz :
  forallb (fun c => negb (Ascii.eqb c "%"%char)) fmt = true ->
  format strftime fmt tp fs tz = fmt.
Proof.
  intros H. unfold format.
  destruct fmt as [|c fmt']; [reflexivity|].
  remember (c :: fmt') as f eqn:Ef.
  assert (HL : (L f <> 0)%nat) by (unfold L; rewrite Ef; discriminate).
  assert (C1 : count_while (fun c => negb (Ascii.eqb c "%"%char)) (skipn 0 f) = L f)
    by (apply count_while_all, H).
  assert (C2 : skipn (0 + L f) f = []) by (apply skipn_all2; unfold L; lia).
  assert (S1 : sub f 0 (0 + L f) = f) by (unfold sub; rewrite Nat.sub_0_r; apply firstn_all2; unfold L; lia).
  cbn [format_loop]. cbv zeta.
  replace (Nat.eqb 0 (L f)) with false by (symmetry; apply Nat.eqb_neq; lia).
  rewrite C1, C2. cbn [count_while].
  replace (negb (Nat.eqb (0 + L f) 0) && Nat.eqb 0 0) with true
    by (symmetry; apply andb_true_iff; split; [apply negb_true_iff, Nat.eqb_neq; lia | reflexivity]).
  rewrite S1. cbv iota beta.
  rewrite Nat.add_0_r, Nat.eqb_refl. simpl andb. cbv iota beta.
  replace (Nat.eqb (0 + L f) (L f)) with true by (symmetry; apply Nat.eqb_eq; lia).
  simpl orb. cbv iota beta.
  destruct (L f) as [|n] eqn:En; [lia|].
  cbn [format_loop]. rewrite En. simpl (0 + S n)%nat. rewrite Nat.eqb_refl.
  unfold format_finish. rewrite En, Nat.eqb_refl. reflexivity.
Qed.

Lemma ParseInt_bounds kmin s w min max min' max' v r :
  ParseInt kmin s w min max = PI_ok v r -> min' <= v <= max' ->
  ParseInt kmin s w min' max' = PI_ok v r.
Proof.
  intros H Hb. destruct s as [|c s']; [discriminate H|].
  destruct (ascii_dec c "-"%char) as [->|Hc].
  - unfold ParseInt in *. cbn iota beta in *.
    destruct (w =? 1); [discriminate|].
    destruct (ParseInt_loop kmin _ 0 s') as [| |value cp]; try discriminate.
    repeat match type of H with
           | context [if ?b then _ else _] => let E := fresh "E" in destruct b eqn:E; try discriminate
           end.
    injection H as <- <-.
    replace (negb ((min' <=? value) && (value <=? max'))) with false by lia. reflexivity.
  - rewrite ParseInt_nonneg in * by exact Hc.
    destruct (ParseInt_loop kmin w 0 (c :: s')) as [| |value cp]; try discriminate.
    repeat match type of H with
           | context [if ?b then _ else _] => let E := fresh "E" in destruct b eqn:E; try discriminate
           end.
    injection H as <- <-.
    replace (negb ((min' <=? - value) && (- value <=? max'))) with false by lia. reflexivity.
Qed.

Lemma two_digits_all : check_range (two_digits_ok 0 99) 0 100 = true.
Proof. vm_compute. reflexivity. Qed.

(** X12: a two-digit field (ParseInt with width 2) reads back what
    Format02d writes for any value of a [lo, hi] range inside [0, 99]. *)
Theorem Format02d_parse (v lo hi : Z) (r : list ascii) :
  0 <= lo <= v -> v <= hi <= 99 ->
  ParseInt int_min (Format02d v ++ r) 2 lo hi = PI_ok v r.
Proof.
  intros Hlo Hhi. apply ParseInt_bounds with 0 99; [|lia].
  apply two_digits_spec; [exact two_digits_all | lia].
Qed.

(** X13: leading white space of the input never changes the result of
    parse. *)
Theorem parse_leading_spaces strptime fmt (sp inp : list ascii) tz :
  forallb isspace sp = true ->
  parse strptime fmt (sp ++ inp) tz = parse strptime fmt inp tz.
Proof.
  intros H. unfold parse. f_equal.
  induction sp as [|c sp IH]; [reflexivity|].
  simpl in H. apply andb_true_iff in H. destruct H as [H1 H2].
  simpl. rewrite H1. apply IH, H2.
Qed.

(** X14: %E4Y writes exactly four characters iff the year is in
    [-999, 9999], and for those years the %E4Y parser (ParseInt with width
    4 and bounds [-999, 9999]) reads the year back. *)
Theorem Format64_E4Y (y : Z) : int64_min <= y ->
  (forall r, -999 <= y <= 9999 -> ParseInt int64_min (Format64 4 y ++ r) 4 (-999) 9999 = PI_ok y r)
  /\ (List.length (Format64 4 y) = 4%nat <-> -999 <= y <= 9999).
Proof.
  intros Hmin.
  assert (In4 : -999 <= y <= 9999 ->
            exists a b c d, Format64 4 y = [a; b; c; d] /\
              ParseInt int64_min [a; b; c; d] 4 (-999) 9999 = PI_ok y []).
  { intros H. pose proof (year4_spec y H) as Y. unfold year4_ok in Y.
    destruct (Format64 4 y) as [|a [|b [|c [|d [|e l]]]]]; try discriminate.
    apply andb_true_iff in Y. destruct Y as [_ Y]. unfold pint_is in Y.
    destruct (ParseInt int64_min [a; b; c; d] 4 (-999) 9999) as [| |v [|]] eqn:P; try discriminate.
    apply Z.eqb_eq in Y. subst v. exists a, b, c, d. split; reflexivity || exact P. }
  split.
  - intros r H. destruct (In4 H) as [a [b [c [d [E P]]]]]. rewrite E.
    apply ParseInt_app; [exact P | reflexivity | lia].
  - split.
    + intros HL. destruct (Format64_shape 4 y Hmin) as [n [Hn [Hv [_ E]]]].
      rewrite E, length_app, pad_digits_length in HL.
      destruct (Z.ltb_spec y 0) as [Hneg|Hpos]; simpl List.length in HL.
      * assert (n = 3) by lia. subst n. change (10 ^ 3) with 1000 in Hv. lia.
      * assert (n = 4) by lia. subst n. change (10 ^ 4) with 10000 in Hv. lia.
    + intros H. destruct (In4 H) as [a [b [c [d [E _]]]]]. rewrite E. reflexivity.
Qed.


(** X1: Format64 followed by ParseInt (width 0, the %s parser) reads back
    the value and leaves the rest, when the value is in the bounds and the
    rest does not start with a digit. *)
Theorem Format64_ParseInt_roundtrip (w v min max : Z) (r : list ascii) :
  int64_min <= min <= v -> v <= max <= int64_max -> isdigit (peek r) = false ->
  ParseInt int64_min (Format64 w v ++ r) 0 min max = PI_ok v r.
Proof. intros H1 H2 H3. apply ParseInt_Format64; assumption. Qed.

(** X5: when ParseInt succeeds, the value lies in [min, max] and it consumed
    a non-empty prefix of the input. *)
Theorem ParseInt_success kmin s w min max v r :
  ParseInt kmin s w min max = PI_ok v r ->
  min <= v <= max /\ exists p, p <> [] /\ s = p ++ r.
Proof. intros H. exact (ParseInt_ok_inv kmin s w min max v r H). Qed.

(** X7: on a run of digits followed by a non-digit, ParseSubSeconds keeps
    the first 15 digits and scales them to femtoseconds. *)
Theorem ParseSubSeconds_value (ds r : list ascii) :
  forallb isdigit ds = true -> ds <> [] -> isdigit (peek r) = false ->
  ParseSubSeconds (ds ++ r) =
  Some (acc_digits 0 (digit_vals (firstn 15 ds)) * 10 ^ (15 - Z.of_nat (Nat.min 15 (List.length ds))), r).
Proof. intros H1 H2 H3. apply ParseSubSeconds_digits; assumption. Qed.

(** X15: Format64 writes an optional minus sign and then decimal digits whose
    value is |v|, at least width characters in all. *)
Theorem Format64_value (w v : Z) : int64_min <= v ->
  exists ds, Format64 w v = (if v <? 0 then ["-"%char] else []) ++ ds
    /\ forallb isdigit ds = true
    /\ acc_digits 0 (digit_vals ds) = Z.abs v
    /\ w <= Z.of_nat (List.length (Format64 w v)).
Proof.
  intros Hmin.
  destruct (Format64_shape w v Hmin) as [n [Hn [Hv [Hw E]]]].
  exists (pad_digits n (Z.abs v)). rewrite E.
  split; [reflexivity|]. split; [apply pad_digits_isdigit|].
  split; [apply digit_vals_value; [lia | split; [apply Z.abs_nonneg | exact Hv]]|].
  rewrite length_app, pad_digits_length, Nat2Z.inj_add, Z2Nat.id by lia.
  revert Hw. destruct (v <? 0); cbn [List.length]; lia.
Qed.

Local Ltac zdec := repeat split; first [apply Z.leb_le; reflexivity | apply Z.ltb_lt; reflexivity | reflexivity].

(** Witness of Format64_ParseInt_roundtrip at a concrete input. *)
Lemma Format64_ParseInt_roundtrip_witness :
  ParseInt int64_min (Format64 5 (-42) ++ str "Z") 0 int64_min int64_max = PI_ok (-42) (str "Z").
Proof. apply Format64_ParseInt_roundtrip; zdec. Defined.

(** Witness of format_parse_percent_s at a concrete input. *)
Lemma format_parse_percent_s_witness :
  parse no_strptime (str "%s") (format no_strftime (str "%s") (-1700000000) 0 utc_time_zone) utc_time_zone
  = POk (-1700000000, 0).
Proof. apply format_parse_percent_s; zdec. Defined.

(** Witness of offset_format_parse at a concrete input. *)
Lemma offset_format_parse_witness :
  ParseOffset (FormatOffset (-3723) []) [] = Some (Z.quot (-3723) 60 * 60, []) /\
  ParseOffset (FormatOffset (-3723) (str ":")) (str ":") = Some (Z.quot (-3723) 60 * 60, []) /\
  ParseOffset (FormatOffset (-3723) (str ":*")) (str ":") = Some (-3723, []) /\
  ParseOffset (FormatOffset (-3723) (str ":*:")) (str ":") = Some (-3723, []).
Proof. apply offset_format_parse; lia. Defined.

(** Witness of ParseOffset_range at a concrete input. *)
Lemma ParseOffset_range_witness :
  ParseOffset (str "-23:59:59") (str ":") = Some (-86399, []) /\ -86400 < -86399 < 86400.
Proof. split; [reflexivity|]. apply (ParseOffset_range (str "-23:59:59") (str ":") (-86399) []); reflexivity. Defined.

(** Witness of ParseInt_success at a concrete input. *)
Lemma ParseInt_success_witness :
  ParseInt int_min (str "-12ab") 0 (-20) 20 = PI_ok (-12) (str "ab") /\
  (-20 <= -12 <= 20 /\ exists p, p <> [] /\ str "-12ab" = p ++ str "ab").
Proof.
  split; [reflexivity|]. apply (ParseInt_success int_min (str "-12ab") 0 (-20) 20 (-12) (str "ab")); reflexivity.
Defined.

(** Witness of ParseZone_spec at a concrete input. *)
Lemma ParseZone_spec_witness :
  ParseZone (str "EST 5") = Some (str "EST", str " 5") /\ ParseZone (str " EST") = None.
Proof.
  destruct ParseZone_spec as [P N]. split.
  - apply (P (str "EST") (str " 5")); [discriminate | repeat constructor | reflexivity].
  - apply N; reflexivity.
Defined.

(** Witness of ParseSubSeconds_value at a concrete input. *)
Lemma ParseSubSeconds_value_witness :
  ParseSubSeconds (str "25Z") = Some (25 * 10 ^ 13, str "Z").
Proof. apply (ParseSubSeconds_value (str "25") (str "Z")); [reflexivity | discriminate | reflexivity]. Defined.

(** Witness of ParseSubSeconds_range at a concrete input. *)
Lemma ParseSubSeconds_range_witness :
  ParseSubSeconds (str "1234567890123456789") = Some (123456789012345, []) /\
  0 <= 123456789012345 < 10 ^ 15.
Proof.
  split; [reflexivity|]. apply (ParseSubSeconds_range (str "1234567890123456789") []); reflexivity.
Defined.

(** Witness of star_subseconds_parse at a concrete input. *)
Lemma star_subseconds_parse_witness :
  ParseSubSeconds (star_subseconds 0 250000000000000 utc_time_zone false ++ str " ")
  = Some (250000000000000, str " ").
Proof. apply star_subseconds_parse; [lia | reflexivity]. Defined.

(** Witness of n_subseconds_parse at a concrete input. *)
Lemma n_subseconds_parse_witness :
  ParseSubSeconds (n_subseconds 0 123456789012345 utc_time_zone false 3 ++ [])
  = Some (123 * 10 ^ 12, []).
Proof. apply (n_subseconds_parse 0 123456789012345 utc_time_zone 3 []); [lia | lia | reflexivity]. Defined.

(** Witness of format_literal at a concrete input. *)
Lemma format_literal_witness :
  format no_strftime (str "T12:00 UTC") 0 0 utc_time_zone = str "T12:00 UTC".
Proof. apply format_literal; reflexivity. Defined.

(** Witness of Format02d_parse at a concrete input. *)
Lemma Format02d_parse_witness :
  ParseInt int_min (Format02d 7 ++ str "/") 2 1 12 = PI_ok 7 (str "/").
Proof. apply Format02d_parse; lia. Defined.

(** Witness of parse_leading_spaces at a concrete input. *)
Lemma parse_leading_spaces_witness :
  parse no_strptime (str "%s") (str "  " ++ str "42") utc_time_zone
  = parse no_strptime (str "%s") (str "42") utc_time_zone.
Proof. apply parse_leading_spaces; reflexivity. Defined.

(** Witness of Format64_E4Y at a concrete input. *)
Lemma Format64_E4Y_witness :
  (forall r, -999 <= 987 <= 9999 -> ParseInt int64_min (Format64 4 987 ++ r) 4 (-999) 9999 = PI_ok 987 r)
  /\ (List.length (Format64 4 987) = 4%nat <-> -999 <= 987 <= 9999).
Proof. apply Format64_E4Y; zdec. Defined.

(** Witness of Format64_value at a concrete input. *)
Lemma Format64_value_witness :
  exists ds, Format64 6 (-305) = (if -305 <? 0 then ["-"%char] else []) ++ ds
    /\ forallb isdigit ds = true
    /\ acc_digits 0 (digit_vals ds) = Z.abs (-305)
    /\ 6 <= Z.of_nat (List.length (Format64 6 (-305))).
Proof. apply Format64_value; zdec. Defined.
